(** * Membership backend: a shallow embedding of [main.py]

    The request handlers of [main.py] are embedded as computations in a
    state-and-exception monad over the document store.  A handler that
    raises keeps whatever it wrote before raising, exactly as the Python
    code does (no transaction spans two writes). *)

From Stdlib Require Import ZArith Ascii String Sorted Permutation.
From stdpp Require Import gmap strings list fin_maps pretty sorting.

Open Scope string_scope.

(** ** Values and documents *)

(** The field values that occur in the documents and JSON responses of
    the program: [None], booleans, strings and lists of strings. *)
Inductive value : Type :=
| VNone
| VBool (b : bool)
| VStr (s : string)
| VList (l : list string).

#[global] Instance value_eq_dec : EqDecision value.
Proof. solve_decision. Defined.

(** [Optional[str]] as a field value. *)
Definition of_opt (o : option string) : value :=
  match o with Some s => VStr s | None => VNone end.

Definition of_opt_list (o : option (list string)) : value :=
  match o with Some l => VList l | None => VNone end.

(** A document as the driver hands it out: the store-assigned [_id], the
    creation time the store recorded for it (if any), and the remaining
    fields as a dictionary.  [I] is the type of the identifier: an
    ObjectId (a number) in the store, a string once a handler has run
    [m["_id"] = str(m["_id"])] on it. *)
Record document (I : Type) : Type := Document {
  _id : I;
  created_at : option Z;
  body : gmap string value
}.
Arguments Document {I} _ _ _.
Arguments _id {I} _.
Arguments created_at {I} _.
Arguments body {I} _.

(** [str(ObjectId)]. *)
Definition str_oid (n : N) : string := pretty n.

(** [m["_id"] = str(m["_id"])]. *)
Definition stringify (m : document N) : document string :=
  Document (str_oid (_id m)) (created_at m) (body m).

(** ** The store *)

(** Modelled from the spec: the document store behind the absent
    [database] module.  Each collection is the sequence of its documents
    in store-native order; [next_oid] is the next identifier the store
    assigns. *)
Record store : Type := Store {
  colls : gmap string (list (document N));
  next_oid : N
}.

(** [db[collection_name]]: a collection never written to is empty. *)
Definition coll (st : store) (collection_name : string) : list (document N) :=
  default [] (colls st !! collection_name).

(** An equality filter such as [{"email": email}]: every entry of the
    filter is a field of the document with the same value.  The filters of
    the program name ordinary fields only, never [_id] or [created_at]. *)
Definition matches (filter_dict : gmap string value) (d : document N) : bool :=
  bool_decide (map_Forall (fun k v => body d !! k = Some v) filter_dict).

(** [collection.find_one(filter)]: the first match in store order. *)
Definition find_one (l : list (document N)) (filter_dict : gmap string value)
  : option (document N) :=
  snd <$> list_find (fun d => matches filter_dict d = true) l.

(** [{"$set": updates}] applied to one document. *)
Definition set_fields (updates : gmap string value) (d : document N) : document N :=
  Document (_id d) (created_at d) (updates ∪ body d).

Fixpoint update_first (filter_dict updates : gmap string value)
  (l : list (document N)) : list (document N) :=
  match l with
  | [] => []
  | d :: l' =>
      if matches filter_dict d then set_fields updates d :: l'
      else d :: update_first filter_dict updates l'
  end.

(** [collection.update_one(filter, {"$set": updates})] on the store: the
    first match is updated, nothing is written when there is none. *)
Definition store_update_one (collection_name : string)
  (filter_dict updates : gmap string value) (st : store) : store :=
  match colls st !! collection_name with
  | None => st
  | Some l =>
      Store (<[collection_name := update_first filter_dict updates l]> (colls st))
            (next_oid st)
  end.

(** Modelled from the spec: [create] of the store adapter, a single-document
    write that appends the document under a fresh identifier.  [now] is the
    creation time the store records for it, [None] if it records none. *)
Definition store_insert (now : option Z) (collection_name : string)
  (data : gmap string value) (st : store) : store :=
  Store (<[collection_name :=
             (coll st collection_name ++ [Document (next_oid st) now data])%list]>
           (colls st))
        (N.succ (next_oid st)).

(** ** Exceptions and the handler monad *)

Inductive exn : Type :=
| HTTPException (status_code : Z) (detail : string)
| Unavailable                (* the store adapter without a store *)
| TypeError.                 (* [db[...]] on [db = None] *)

Inductive outcome (A : Type) : Type :=
| Ok (a : A)
| Raise (e : exn).
Arguments Ok {A} _.
Arguments Raise {A} _.

(** The global [db] is either absent or a handle on the store. *)
Definition M (A : Type) : Type := option store -> outcome A * option store.

Definition ret {A} (a : A) : M A := fun db => (Ok a, db).
Definition raise {A} (e : exn) : M A := fun db => (Raise e, db).
Definition bind {A B} (c : M A) (k : A -> M B) : M B :=
  fun db => match c db with
            | (Ok a, db') => k a db'
            | (Raise e, db') => (Raise e, db')
            end.

Notation "x <- c ;; k" := (bind c (fun x => k))
  (at level 100, c at next level, right associativity).
Notation "c ;;; k" := (bind c (fun _ => k))
  (at level 100, right associativity).

Definition get_db : M (option store) := fun db => (Ok db, db).

(** [db[collection_name].find_one(filter)]. *)
Definition db_find_one (collection_name : string) (filter_dict : gmap string value)
  : M (option (document N)) :=
  fun db => match db with
            | Some st => (Ok (find_one (coll st collection_name) filter_dict), db)
            | None => (Raise TypeError, db)
            end.

(** [db[collection_name].update_one(filter, {"$set": updates})]. *)
Definition db_update_one (collection_name : string)
  (filter_dict updates : gmap string value) : M unit :=
  fun db => match db with
            | Some st =>
                (Ok tt, Some (store_update_one collection_name filter_dict updates st))
            | None => (Raise TypeError, db)
            end.

(** Modelled from the spec: [create_document] of the absent [database]
    module, [create(collection, document) -> id]; it fails with
    Unavailable when there is no store. *)
Definition create_document (now : option Z) (collection_name : string)
  (data : gmap string value) : M string :=
  fun db => match db with
            | Some st =>
                (Ok (str_oid (next_oid st)),
                 Some (store_insert now collection_name data st))
            | None => (Raise Unavailable, db)
            end.

(** Modelled from the spec: [get_documents] of the absent [database]
    module, [list(collection, filter?, limit?)]: the documents that pass
    the filter, in store-native order, at most [limit] of them. *)
Definition get_documents (collection_name : string)
  (filter_dict : option (gmap string value)) (limit : option nat)
  : M (list (document N)) :=
  fun db => match db with
            | Some st =>
                let found := filter (fun d => matches (default ∅ filter_dict) d = true)
                                    (coll st collection_name) in
                (Ok (match limit with Some n => take n found | None => found end), db)
            | None => (Raise Unavailable, db)
            end.

(** ** Request payloads *)

Module RegisterRequest.
Record t : Type := Build { name : string; email : string }.
End RegisterRequest.

Module SubscribeRequest.
Record t : Type := Build {
  email : string;
  provider : string;
  company : option string;
  notes : option string
}.
End SubscribeRequest.

Module MessageCreate.
Record t : Type := Build {
  member_email : string;
  content : string;
  channel : string
}.
(** Request validation: [channel: str = "general"]. *)
Definition parse (member_email content : string) (channel : option string) : t :=
  Build member_email content (default "general" channel).
Definition model_dump (p : t) : gmap string value :=
  <["member_email" := VStr (member_email p)]>
    (<["content" := VStr (content p)]>
       (<["channel" := VStr (MessageCreate.channel p)]> ∅)).
End MessageCreate.

Module ResourceCreate.
Record t : Type := Build {
  title : string;
  type : string;
  description : option string;
  url : option string;
  tags : option (list string)
}.
Definition model_dump (p : t) : gmap string value :=
  <["title" := VStr (title p)]>
    (<["type" := VStr (type p)]>
       (<["description" := of_opt (description p)]>
          (<["url" := of_opt (url p)]>
             (<["tags" := of_opt_list (tags p)]> ∅)))).
End ResourceCreate.

Module VideoCreate.
Record t : Type := Build {
  title : string;
  vimeo_id : string;
  description : option string;
  category : option string
}.
Definition model_dump (p : t) : gmap string value :=
  <["title" := VStr (title p)]>
    (<["vimeo_id" := VStr (vimeo_id p)]>
       (<["description" := of_opt (description p)]>
          (<["category" := of_opt (category p)]> ∅))).
End VideoCreate.

(** ** Strings *)

(** [str.lower()] on the ASCII letters; the three provider names are
    ASCII, and no other character lower-cases to one of their letters. *)
Definition lower_ascii (c : ascii) : ascii :=
  let n := nat_of_ascii c in
  if (65 <=? n)%nat && (n <=? 90)%nat then ascii_of_nat (n + 32) else c.

Fixpoint lower (s : string) : string :=
  match s with
  | EmptyString => EmptyString
  | String c s' => String (lower_ascii c) (lower s')
  end.

(** Truthiness of an [Optional[str]]: [None] and [""] are falsy. *)
Definition truthy (o : option string) : bool :=
  match o with
  | Some s => negb (bool_decide (s = ""))
  | None => false
  end.

(** ** Utility helpers *)

(** [if db] is the test that a store handle is configured. *)
Definition member_by_email (email : string) : M (option (document N)) :=
  db <- get_db ;;
  match db with
  | Some _ => db_find_one "member" {["email" := VStr email]}
  | None => ret None
  end.

(** A document found by the driver is never an empty dictionary (it has
    its [_id]), so [not m] holds exactly when [m] is [None]. *)
Definition ensure_member (email : string) : M (document N) :=
  m <- member_by_email email ;;
  match m with
  | None => raise (HTTPException 404 "Member not found")
  | Some m => ret m
  end.

Definition is_admin (email : string) : M bool :=
  m <- member_by_email email ;;
  ret (match m with
       | Some m => bool_decide (body m !! "role" = Some (VStr "admin"))
       | None => false
       end).

(** The guard [not x_admin_email or not is_admin(x_admin_email)] of the
    admin-gated handlers; [is_admin] is not called on a falsy header. *)
Definition not_admin (x_admin_email : option string) : M bool :=
  match x_admin_email with
  | Some e => if truthy (Some e) then b <- is_admin e ;; ret (negb b) else ret true
  | None => ret true
  end.

(** ** Handlers *)

Definition admin_check (email : string) : M (gmap string value) :=
  b <- is_admin email ;;
  ret (<["email" := VStr email]> (<["is_admin" := VBool b]> ∅)).

Definition register_member (now : option Z) (payload : RegisterRequest.t)
  : M (gmap string value) :=
  m <- member_by_email (RegisterRequest.email payload) ;;
  match m with
  | Some _ => raise (HTTPException 400 "Email already registered")
  | None =>
      let doc : gmap string value :=
        <["name" := VStr (RegisterRequest.name payload)]>
          (<["email" := VStr (RegisterRequest.email payload)]>
             (<["role" := VStr "member"]>
                (<["subscription_status" := VStr "inactive"]>
                   (<["provider" := VNone]>
                      (<["plan" := VStr "$49/mo"]> ∅))))) in
      inserted_id <- create_document now "member" doc ;;
      ret (<["id" := VStr inserted_id]> (<["message" := VStr "Registered"]> ∅))
  end.

Definition list_members (x_admin_email : option string) : M (list (document string)) :=
  denied <- not_admin x_admin_email ;;
  if denied : bool then raise (HTTPException 403 "Admin only")
  else
    members <- get_documents "member" None None ;;
    ret (stringify <$> members).

Definition update_member (email : string) (role subscription_status : option string)
  (x_admin_email : option string) : M (gmap string value) :=
  denied <- not_admin x_admin_email ;;
  if denied : bool then raise (HTTPException 403 "Admin only")
  else
    ensure_member email ;;;
    let updates : gmap string value := ∅ in
    let updates :=
      match role with
      | Some r => if truthy role then <["role" := VStr r]> updates else updates
      | None => updates
      end in
    let updates :=
      match subscription_status with
      | Some s =>
          if truthy subscription_status
          then <["subscription_status" := VStr s]> updates else updates
      | None => updates
      end in
    if bool_decide (updates = ∅) then raise (HTTPException 400 "No updates provided")
    else
      db_update_one "member" {["email" := VStr email]} updates ;;;
      ret (<["message" := VStr "Updated"]> ∅).

Definition subscribe (now : option Z) (payload : SubscribeRequest.t)
  : M (gmap string value) :=
  m <- ensure_member (SubscribeRequest.email payload) ;;
  let provider := lower (SubscribeRequest.provider payload) in
  if negb (bool_decide (provider ∈ ["stripe"; "paypal"; "invoice"]))
  then raise (HTTPException 400 "Invalid provider")
  else
    r <- (if bool_decide (provider = "stripe")
          then ret (VStr "https://buy.stripe.com/test_12345", "active")
          else if bool_decide (provider = "paypal")
          then ret (VStr "https://www.paypal.com/checkoutnow?token=TEST123", "active")
          else
            create_document now "invoicerequest"
              (<["member_email" := VStr (SubscribeRequest.email payload)]>
                 (<["company" := of_opt (SubscribeRequest.company payload)]>
                    (<["notes" := of_opt (SubscribeRequest.notes payload)]>
                       (<["status" := VStr "requested"]> ∅)))) ;;;
            ret (VNone, "pending")) ;;
    let '(checkout_url, status) := r in
    db_update_one "member" {["email" := VStr (SubscribeRequest.email payload)]}
      (<["subscription_status" := VStr status]> (<["provider" := VStr provider]> ∅)) ;;;
    ret (<["message" := VStr "Subscription initiated"]>
           (<["status" := VStr status]> (<["checkout_url" := checkout_url]> ∅))).

Definition get_videos : M (list (document string)) :=
  vids <- get_documents "video" None None ;;
  ret (stringify <$> vids).

Definition add_video (now : option Z) (payload : VideoCreate.t)
  (x_admin_email : option string) : M (gmap string value) :=
  denied <- not_admin x_admin_email ;;
  if denied : bool then raise (HTTPException 403 "Admin only")
  else
    vid_id <- create_document now "video" (VideoCreate.model_dump payload) ;;
    ret (<["id" := VStr vid_id]> (<["message" := VStr "Video added"]> ∅)).

Definition get_resources : M (list (document string)) :=
  items <- get_documents "resource" None None ;;
  ret (stringify <$> items).

Definition add_resource (now : option Z) (payload : ResourceCreate.t)
  (x_admin_email : option string) : M (gmap string value) :=
  denied <- not_admin x_admin_email ;;
  if denied : bool then raise (HTTPException 403 "Admin only")
  else
    res_id <- create_document now "resource" (ResourceCreate.model_dump payload) ;;
    ret (<["id" := VStr res_id]> (<["message" := VStr "Resource added"]> ∅)).

(** [x.get("created_at", 0)]. *)
Definition sort_key {I} (x : document I) : Z := default 0%Z (created_at x).

(** [list.sort(key=key, reverse=True)]: a stable sort into descending
    order of the keys; elements with equal keys keep their order. *)
Fixpoint insert_desc {A} (key : A -> Z) (x : A) (l : list A) : list A :=
  match l with
  | [] => [x]
  | y :: l' => if (key x <? key y)%Z then y :: insert_desc key x l' else x :: y :: l'
  end.

Definition sort_reverse {A} (key : A -> Z) (l : list A) : list A :=
  foldr (insert_desc key) [] l.

(** [limit] is a count of documents. *)
Definition list_messages (channel : string) (limit : nat) : M (list (document string)) :=
  msgs <- get_documents "message" (Some {["channel" := VStr channel]}) (Some limit) ;;
  let msgs := stringify <$> msgs in
  let msgs := sort_reverse sort_key msgs in
  ret msgs.

(** The query defaults of the listing: [channel = "general"], [limit = 50]. *)
Definition list_messages_query (channel : option string) (limit : option nat)
  : M (list (document string)) :=
  list_messages (default "general" channel) (default 50 limit).

Definition post_message (now : option Z) (payload : MessageCreate.t)
  : M (gmap string value) :=
  m <- ensure_member (MessageCreate.member_email payload) ;;
  if negb (bool_decide (body m !! "subscription_status"
                          ∈ [Some (VStr "active"); Some (VStr "past_due");
                             Some (VStr "pending")]))
  then raise (HTTPException 403 "Subscription required")
  else
    msg_id <- create_document now "message" (MessageCreate.model_dump payload) ;;
    ret (<["id" := VStr msg_id]> (<["message" := VStr "Posted"]> ∅)).

(** ** Liveness and diagnostics *)

Definition read_root : M (gmap string value) :=
  ret (<["message" := VStr "AI Sales Training Backend Running"]> ∅).

(** [s[:n]]. *)
Definition str_take (n : nat) (s : string) : string := String.substring 0 n s.

(** The handle's attributes that the store model does not carry are
    inputs of the handler: [database_url] is [os.getenv("DATABASE_URL")],
    [name] is [db.name], and [list_collection_names] is the outcome of
    [db.list_collection_names()], either [str(e)] of the exception it raised
    or the names it returned.  Nothing else in the outer [try] can raise. *)
Definition test_database (database_url : option string) (name : string)
  (list_collection_names : string + list string) : M (gmap string value) :=
  let response : gmap string value :=
    <["backend" := VStr "✅ Running"]>
      (<["database" := VStr "❌ Not Available"]>
         (<["database_url" := VStr "❌ Not Set"]>
            (<["database_name" := VStr "❌ Not Set"]>
               (<["connection_status" := VStr "Not Connected"]>
                  (<["collections" := VList []]> ∅))))) in
  db <- get_db ;;
  match db with
  | Some _ =>
      let response := <["database" := VStr "✅ Available"]> response in
      let response :=
        <["database_url" :=
            VStr (if truthy database_url then "✅ Set" else "❌ Not Set")]> response in
      let response := <["database_name" := VStr name]> response in
      let response := <["connection_status" := VStr "Connected"]> response in
      match list_collection_names with
      | inr collections =>
          let response := <["collections" := VList (take 10 collections)]> response in
          ret (<["database" := VStr "✅ Connected & Working"]> response)
      | inl e =>
          ret (<["database" :=
                   VStr ("⚠️ Connected but Error: " +:+ str_take 80 e)]> response)
      end
  | None => ret response
  end.

(** ** The collection schemas of [schemas.py] *)

Module Schemas.

Module Member.
Record t : Type := Build {
  name : string;
  email : string;
  role : string;
  subscription_status : string;
  provider : option string;
  plan : option string
}.
(** [Member(name=..., email=...)]: the other fields take their defaults. *)
Definition new (name email : string) : t :=
  Build name email "member" "inactive" None (Some "$49/mo").
Definition model_dump (m : t) : gmap string value :=
  <["name" := VStr (name m)]>
    (<["email" := VStr (email m)]>
       (<["role" := VStr (role m)]>
          (<["subscription_status" := VStr (subscription_status m)]>
             (<["provider" := of_opt (provider m)]>
                (<["plan" := of_opt (plan m)]> ∅))))).
End Member.

Module InvoiceRequest.
Record t : Type := Build {
  member_email : string;
  company : option string;
  notes : option string;
  status : string
}.
(** [InvoiceRequest(member_email=..., company=..., notes=...)]. *)
Definition new (member_email : string) (company notes : option string) : t :=
  Build member_email company notes "requested".
Definition model_dump (m : t) : gmap string value :=
  <["member_email" := VStr (member_email m)]>
    (<["company" := of_opt (company m)]>
       (<["notes" := of_opt (notes m)]>
          (<["status" := VStr (status m)]> ∅))).
End InvoiceRequest.

Module Message.
Record t : Type := Build {
  member_email : string;
  content : string;
  channel : string
}.
(** [Message(member_email=..., content=...)], [channel] optional. *)
Definition new (member_email content : string) (channel : option string) : t :=
  Build member_email content (default "general" channel).
Definition model_dump (m : t) : gmap string value :=
  <["member_email" := VStr (member_email m)]>
    (<["content" := VStr (content m)]>
       (<["channel" := VStr (channel m)]> ∅)).
End Message.

Module Video.
Record t : Type := Build {
  title : string;
  vimeo_id : string;
  description : option string;
  category : option string
}.
Definition model_dump (m : t) : gmap string value :=
  <["title" := VStr (title m)]>
    (<["vimeo_id" := VStr (vimeo_id m)]>
       (<["description" := of_opt (description m)]>
          (<["category" := of_opt (category m)]> ∅))).
End Video.

End Schemas.

(** * Properties *)

(** ** Vocabulary of the statements *)

(** The Member collection of the store; without a store there is none. *)
Definition members (db : option store) : list (document N) :=
  match db with Some st => coll st "member" | None => [] end.

Definition has_email (e : string) (d : document N) : Prop :=
  body d !! "email" = Some (VStr e).

Definition has_role (r : string) (d : document N) : Prop :=
  body d !! "role" = Some (VStr r).

#[global] Instance has_email_dec e d : Decision (has_email e d).
Proof. unfold has_email. apply _. Defined.

#[global] Instance has_role_dec r d : Decision (has_role r d).
Proof. unfold has_role. apply _. Defined.

(** No Member record carries the email. *)
Definition no_member (db : option store) (e : string) : Prop :=
  Forall (fun d => ~ has_email e d) (members db).

(** The email resolves to [d]: [d] is the first Member in store order that
    carries it, with [pre] before and [post] after it. *)
Definition resolves_at (db : option store) (e : string)
  (pre : list (document N)) (d : document N) (post : list (document N)) : Prop :=
  members db = (pre ++ d :: post)%list /\ has_email e d /\
  Forall (fun x => ~ has_email e x) pre.

Definition resolves (db : option store) (e : string) (d : document N) : Prop :=
  exists pre post, resolves_at db e pre d post.

(** The caller passes the admin gate: a non-empty header that resolves to
    a Member whose role is "admin". *)
Definition admin_caller (db : option store) (x_admin_email : option string) : Prop :=
  exists e d, x_admin_email = Some e /\ e <> "" /\ resolves db e d /\ has_role "admin" d.

(** [d'] is [d] with at most the fields [keys] changed. *)
Definition same_except (keys : list string) (d d' : document N) : Prop :=
  _id d' = _id d /\ created_at d' = created_at d /\
  forall k, k ∉ keys -> body d' !! k = body d !! k.

(** The error kinds of the interface, as the handlers raise them. *)
Definition NotFound : exn := HTTPException 404 "Member not found".
Definition Conflict : exn := HTTPException 400 "Email already registered".
Definition Forbidden (detail : string) : exn := HTTPException 403 detail.
Definition BadRequest (detail : string) : exn := HTTPException 400 detail.

(** The header is missing or does not belong to a Member whose role is
    "admin". *)
Definition not_admin_header (db : option store) (x_admin_email : option string) : Prop :=
  x_admin_email = None \/
  exists e, x_admin_email = Some e /\
            forall d, resolves db e d -> ~ has_role "admin" d.

(** A query parameter counts only when it is a non-empty string. *)
Definition nonempty (o : option string) : option string :=
  match o with
  | Some "" => None
  | _ => o
  end.

(** Field [k] of [d'] is the given value, or that of [d] when none is given. *)
Definition field_update (given : option string) (k : string) (d d' : document N) : Prop :=
  match given with
  | Some v => body d' !! k = Some (VStr v)
  | None => body d' !! k = body d !! k
  end.

(** [d'] is [d] after a partial update of role and subscription_status:
    identifier, creation time and every other field are those of [d]. *)
Definition partial_update (role subscription_status : option string)
  (d d' : document N) : Prop :=
  field_update role "role" d d' /\
  field_update subscription_status "subscription_status" d d' /\
  same_except ["role"; "subscription_status"] d d'.

(** [st'] is [st] with the Member collection replaced by [l']: every other
    collection and the identifier counter are the same. *)
Definition members_replaced (st st' : store) (l' : list (document N)) : Prop :=
  coll st' "member" = l' /\ next_oid st' = next_oid st /\
  forall c, c <> "member" -> colls st' !! c = colls st !! c.

(** The member update as the claim words it, a field counting as supplied
    whenever it is present in the request. *)
Definition update_member_as_stated (db : option store) (email : string)
  (role subscription_status x_admin_email : option string) : Prop :=
  admin_caller db x_admin_email ->
  (no_member db email ->
   update_member email role subscription_status x_admin_email db
   = (Raise NotFound, db)) /\
  (forall d, resolves db email d -> role = None -> subscription_status = None ->
   update_member email role subscription_status x_admin_email db
   = (Raise (BadRequest "No updates provided"), db)) /\
  (forall pre d post, resolves_at db email pre d post ->
   is_Some role \/ is_Some subscription_status ->
   exists st st' d',
     db = Some st /\
     update_member email role subscription_status x_admin_email db
     = (Ok (<["message" := VStr "Updated"]> ∅), Some st') /\
     members_replaced st st' (pre ++ d' :: post) /\
     partial_update role subscription_status d d').

(** [st'] is [st] after one document [d'] was created in collection [c]:
    it is appended under the next identifier, and every other collection
    is the same. *)
Definition inserted (st st' : store) (c : string) (d' : document N) : Prop :=
  coll st' c = (coll st c ++ [d'])%list /\ _id d' = next_oid st /\
  next_oid st' = N.succ (next_oid st) /\
  forall c', c' <> c -> colls st' !! c' = colls st !! c'.

(** The Member document of a new registration. *)
Definition fresh_member (name email : string) (d : document N) : Prop :=
  body d !! "name" = Some (VStr name) /\
  body d !! "email" = Some (VStr email) /\
  body d !! "role" = Some (VStr "member") /\
  body d !! "subscription_status" = Some (VStr "inactive") /\
  body d !! "provider" = Some VNone /\
  body d !! "plan" = Some (VStr "$49/mo").

(** The author's subscription_status is one of the three that may post. *)
Definition may_post (d : document N) : Prop :=
  exists s, body d !! "subscription_status" = Some (VStr s) /\
            s ∈ ["active"; "past_due"; "pending"].

(** The Message document of a post. *)
Definition message_of (p : MessageCreate.t) (d : document N) : Prop :=
  body d !! "member_email" = Some (VStr (MessageCreate.member_email p)) /\
  body d !! "content" = Some (VStr (MessageCreate.content p)) /\
  body d !! "channel" = Some (VStr (MessageCreate.channel p)).

Definition succeeded {A} (o : outcome A) : bool :=
  match o with Ok _ => true | Raise _ => false end.

(** Two strings are equal up to the case of their ASCII letters. *)
Definition is_upper (c : ascii) : bool :=
  (65 <=? nat_of_ascii c)%nat && (nat_of_ascii c <=? 90)%nat.

Definition ascii_nocase_eq (a b : ascii) : bool :=
  bool_decide (a = b)
  || (is_upper a && (nat_of_ascii a + 32 =? nat_of_ascii b)%nat)
  || (is_upper b && (nat_of_ascii b + 32 =? nat_of_ascii a)%nat).

Fixpoint nocase_eq (s t : string) : bool :=
  match s, t with
  | EmptyString, EmptyString => true
  | String a s', String b t' => ascii_nocase_eq a b && nocase_eq s' t'
  | _, _ => false
  end.

Fixpoint no_upper (s : string) : bool :=
  match s with
  | EmptyString => true
  | String c s' => negb (is_upper c) && no_upper s'
  end.

(** [d'] is [d] after a subscription: status and provider are set, the
    rest of the member is as before. *)
Definition subscribed (status provider : string) (d d' : document N) : Prop :=
  body d' !! "subscription_status" = Some (VStr status) /\
  body d' !! "provider" = Some (VStr provider) /\
  same_except ["subscription_status"; "provider"] d d'.

(** The InvoiceRequest document of an invoice subscription. *)
Definition invoice_request_of (p : SubscribeRequest.t) (d : document N) : Prop :=
  body d !! "member_email" = Some (VStr (SubscribeRequest.email p)) /\
  body d !! "company" = Some (of_opt (SubscribeRequest.company p)) /\
  body d !! "notes" = Some (of_opt (SubscribeRequest.notes p)) /\
  body d !! "status" = Some (VStr "requested").

(** The response of [subscribe]. *)
Definition subscription_response (status : string) (checkout_url : value)
  : gmap string value :=
  <["message" := VStr "Subscription initiated"]>
    (<["status" := VStr status]> (<["checkout_url" := checkout_url]> ∅)).

(** The messages of a channel, in store order. *)
Definition channel_messages (st : store) (channel : string) : list (document N) :=
  filter (fun d => body d !! "channel" = Some (VStr channel)) (coll st "message").

(** Descending order of the keys. *)
Definition ge_key {A} (key : A -> Z) (a b : A) : Prop := (key b <= key a)%Z.

(** [a] is at least as new as [b], a missing creation time counting as 0. *)
Definition newer_eq (a b : document string) : Prop :=
  (default 0 (created_at b) <= default 0 (created_at a))%Z.

(** Message listing as the claim words it: at most [limit] messages of
    the channel, newest first, and no message of the channel that was left
    out is newer than one that was returned. *)
Definition list_messages_as_stated (st : store) (channel : string) (limit : nat) : Prop :=
  exists msgs,
    list_messages channel limit (Some st) = (Ok msgs, Some st) /\
    length msgs <= limit /\
    (forall m, m ∈ msgs -> body m !! "channel" = Some (VStr channel)) /\
    StronglySorted newer_eq msgs /\
    (forall m r, m ∈ stringify <$> channel_messages st channel -> m ∉ msgs ->
                 r ∈ msgs -> newer_eq r m).

(** ** Example data *)

Definition member_doc (i : N) (name email role status : string) : document N :=
  Document i None
    (<["name" := VStr name]>
       (<["email" := VStr email]>
          (<["role" := VStr role]>
             (<["subscription_status" := VStr status]>
                (<["provider" := VNone]> (<["plan" := VStr "$49/mo"]> ∅)))))).

Definition message_doc (i : N) (t : option Z) (author content channel : string)
  : document N :=
  Document i t
    (<["member_email" := VStr author]>
       (<["content" := VStr content]> (<["channel" := VStr channel]> ∅))).

Definition root_doc : document N := member_doc 0 "Root" "root@x.com" "admin" "active".
Definition ann_doc : document N := member_doc 1 "Ann" "ann@x.com" "member" "inactive".
Definition bob_doc : document N := member_doc 2 "Bob" "bob@x.com" "moderator" "active".

(** Three members (one admin) and three messages in channel "x", oldest
    first in store order, and one in channel "y". *)
Definition demo_store : store :=
  Store (<["member" := [root_doc; ann_doc; bob_doc]]>
           (<["message" := [message_doc 3 (Some 10%Z) "bob@x.com" "one" "x";
                            message_doc 4 (Some 20%Z) "bob@x.com" "two" "x";
                            message_doc 5 (Some 30%Z) "bob@x.com" "three" "x";
                            message_doc 6 None "bob@x.com" "four" "y"]]> ∅))
        7.

Definition demo : option store := Some demo_store.

(** ** Vocabulary of the further properties *)

(** The emails of the Member collection, in store order. *)
Definition email_view (db : option store) : list (option value) :=
  (fun d => body d !! "email") <$> members db.

(** Every email is carried by at most one Member. *)
Definition unique_emails (db : option store) : Prop :=
  forall i j e,
    email_view db !! i = Some (Some (VStr e)) ->
    email_view db !! j = Some (Some (VStr e)) -> i = j.

(** What authorization reads of the Member collection: email and role of
    each member, in store order. *)
Definition auth_view (db : option store) : list (option value * option value) :=
  (fun d => (body d !! "email", body d !! "role")) <$> members db.

(** The admin decision on such a view: the role of the first entry with
    the email. *)
Fixpoint admin_of (v : list (option value * option value)) (e : string) : bool :=
  match v with
  | [] => false
  | (e', r) :: v' =>
      if bool_decide (e' = Some (VStr e)) then bool_decide (r = Some (VStr "admin"))
      else admin_of v' e
  end.

(** A dictionary of updates that leaves the email alone. *)
Definition keeps_email (u : gmap string value) : Prop := u !! "email" = None.

(** The documents of a collection, as the public listings return them. *)
Definition listing (db : option store) (c : string) : list (document string) :=
  match db with Some st => stringify <$> coll st c | None => [] end.

(** The messages of channel "x" of the example store, newest first in
    store order. *)
Definition sorted_store : store :=
  Store (<["message" := [message_doc 0 (Some 30%Z) "bob@x.com" "three" "x";
                         message_doc 1 (Some 20%Z) "bob@x.com" "two" "x";
                         message_doc 2 None "bob@x.com" "one" "x"]]> ∅)
        3.

(** ** The store primitives *)

Lemma matches_singleton k v d :
  matches {[k := v]} d = true <-> body d !! k = Some v.
Proof.
  unfold matches. rewrite bool_decide_eq_true, map_Forall_singleton. done.
Qed.

Lemma matches_email e d : matches {["email" := VStr e]} d = true <-> has_email e d.
Proof. apply matches_singleton. Qed.

Lemma matches_empty d : matches ∅ d = true.
Proof. unfold matches. apply bool_decide_eq_true, map_Forall_empty. Qed.

Lemma find_one_nil f : find_one [] f = None.
Proof. reflexivity. Qed.

Lemma find_one_cons d l f :
  find_one (d :: l) f = if matches f d then Some d else find_one l f.
Proof.
  unfold find_one. cbn [list_find]. destruct (matches f d) eqn:E.
  - rewrite decide_True by done. reflexivity.
  - rewrite decide_False by discriminate.
    destruct (list_find _ l) as [[i x]|]; reflexivity.
Qed.

Lemma find_one_email_None l e :
  find_one l {["email" := VStr e]} = None <-> Forall (fun x => ~ has_email e x) l.
Proof.
  induction l as [|d l IH].
  - split; [constructor | reflexivity].
  - rewrite find_one_cons, Forall_cons.
    destruct (matches _ d) eqn:E.
    + apply matches_email in E. split; [discriminate | tauto].
    + assert (~ has_email e d) by (rewrite <- matches_email, E; discriminate).
      tauto.
Qed.

Lemma find_one_email_Some l e d :
  find_one l {["email" := VStr e]} = Some d <->
  exists pre post, l = (pre ++ d :: post)%list /\ has_email e d /\
                   Forall (fun x => ~ has_email e x) pre.
Proof.
  induction l as [|a l IH].
  - split; [discriminate|]. intros (pre & post & H & _). by destruct pre.
  - rewrite find_one_cons. destruct (matches _ a) eqn:E.
    + apply matches_email in E. split.
      * intros [= ->]. exists [], l. by repeat split.
      * intros (pre & post & Hl & Hd & Hpre). destruct pre as [|p pre].
        -- injection Hl as Ha _. by subst a.
        -- injection Hl as Ha _. subst p. inversion Hpre; subst. contradiction.
    + assert (~ has_email e a) by (rewrite <- matches_email, E; discriminate).
      rewrite IH. split.
      * intros (pre & post & -> & Hd & Hpre). exists (a :: pre), post.
        repeat split; [done | by constructor].
      * intros (pre & post & Hl & Hd & Hpre). destruct pre as [|p pre].
        -- injection Hl as Ha _. subst a. contradiction.
        -- injection Hl as Ha Hl. subst p l. inversion Hpre; subst.
           exists pre, post. auto.
Qed.

Lemma update_first_email e u pre d post :
  has_email e d -> Forall (fun x => ~ has_email e x) pre ->
  update_first {["email" := VStr e]} u (pre ++ d :: post)
  = (pre ++ set_fields u d :: post)%list.
Proof.
  intros Hd Hpre. induction Hpre as [|a pre Ha _ IH]; simpl.
  - apply matches_email in Hd. by rewrite Hd.
  - destruct (matches _ a) eqn:E; [by apply matches_email in E|]. by rewrite IH.
Qed.

Lemma coll_insert_eq c l m n : coll (Store (<[c := l]> m) n) c = l.
Proof. unfold coll. simpl. by rewrite lookup_insert_eq. Qed.

Lemma coll_Some st c l : colls st !! c = Some l -> coll st c = l.
Proof. unfold coll. by intros ->. Qed.

(** ** Running the helpers *)

Lemma member_by_email_run e db :
  member_by_email e db = (Ok (find_one (members db) {["email" := VStr e]}), db).
Proof. by destruct db. Qed.

Lemma member_by_email_None e db :
  no_member db e -> member_by_email e db = (Ok None, db).
Proof.
  intros H. rewrite member_by_email_run. by apply find_one_email_None in H as ->.
Qed.

Lemma member_by_email_Some e db d :
  resolves db e d -> member_by_email e db = (Ok (Some d), db).
Proof.
  intros (pre & post & H). rewrite member_by_email_run.
  assert (find_one (members db) {["email" := VStr e]} = Some d) as ->; [|done].
  apply find_one_email_Some. by exists pre, post.
Qed.

Lemma resolves_or_not db e : no_member db e \/ exists d, resolves db e d.
Proof.
  destruct (find_one (members db) {["email" := VStr e]}) as [d|] eqn:E.
  - right. exists d. by apply find_one_email_Some.
  - left. by apply find_one_email_None.
Qed.

Lemma resolves_fun db e d1 d2 : resolves db e d1 -> resolves db e d2 -> d1 = d2.
Proof.
  intros H1%member_by_email_Some H2%member_by_email_Some. congruence.
Qed.

Lemma resolves_store db e d : resolves db e d -> exists st, db = Some st.
Proof.
  intros (pre & post & H & _). destruct db; [eauto|]. by destruct pre.
Qed.

Lemma ensure_member_None e db :
  no_member db e -> ensure_member e db = (Raise NotFound, db).
Proof. intros H. unfold ensure_member, bind. by rewrite member_by_email_None. Qed.

Lemma ensure_member_Some e db d :
  resolves db e d -> ensure_member e db = (Ok d, db).
Proof. intros H. unfold ensure_member, bind. by rewrite (member_by_email_Some _ _ d). Qed.

Lemma is_admin_run e db :
  is_admin e db =
  (Ok (match find_one (members db) {["email" := VStr e]} with
       | Some m => bool_decide (has_role "admin" m)
       | None => false
       end), db).
Proof. unfold is_admin, bind. by rewrite member_by_email_run. Qed.

Lemma not_admin_admin db x : admin_caller db x -> not_admin x db = (Ok false, db).
Proof.
  intros (e & d & -> & He & Hd & Hr). unfold not_admin, truthy.
  rewrite bool_decide_eq_false_2 by done. simpl. unfold bind.
  rewrite is_admin_run. apply member_by_email_Some in Hd.
  rewrite member_by_email_run in Hd. injection Hd as ->.
  by rewrite bool_decide_eq_true_2.
Qed.

Lemma not_admin_denied db x : ~ admin_caller db x -> not_admin x db = (Ok true, db).
Proof.
  intros Hn. destruct x as [e|]; [|done]. unfold not_admin, truthy.
  destruct (decide (e = "")) as [->|He]; [done|].
  rewrite bool_decide_eq_false_2 by done. simpl. unfold bind.
  rewrite is_admin_run.
  destruct (find_one _ _) as [m|] eqn:E; [|done].
  destruct (decide (has_role "admin" m)) as [Hr|Hr].
  - destruct Hn. exists e, m. repeat split; try done. by apply find_one_email_Some.
  - by rewrite bool_decide_eq_false_2.
Qed.

Lemma resolves_compute db e d :
  find_one (members db) {["email" := VStr e]} = Some d -> resolves db e d.
Proof. intros H. by apply find_one_email_Some. Qed.

Lemma no_member_compute db e :
  find_one (members db) {["email" := VStr e]} = None -> no_member db e.
Proof. intros H. by apply find_one_email_None. Qed.

Lemma not_admin_header_denied db x : not_admin_header db x -> ~ admin_caller db x.
Proof.
  intros [->|(e & -> & H)] (e' & d & Hx & _ & Hd & Hr); [discriminate|].
  injection Hx as <-. by apply (H d).
Qed.

Lemma root_is_admin : admin_caller demo (Some "root@x.com").
Proof.
  exists "root@x.com", root_doc.
  split; [reflexivity|]. split; [discriminate|]. split; [|reflexivity].
  apply resolves_compute. reflexivity.
Defined.

Lemma ann_resolves : resolves demo "ann@x.com" ann_doc.
Proof. apply resolves_compute. reflexivity. Defined.

Lemma ann_not_admin : not_admin_header demo (Some "ann@x.com").
Proof.
  right. exists "ann@x.com". split; [reflexivity|].
  intros d Hd. rewrite (resolves_fun _ _ _ _ Hd ann_resolves). discriminate.
Defined.

Lemma zed_no_member : no_member demo "zed@x.com".
Proof. apply no_member_compute. reflexivity. Defined.

(** ** Authorization *)

(** C8: [is_admin] never fails and leaves the store alone; it returns true
    exactly when the email resolves to a Member whose role is the string
    "admin", and false both when no Member carries the email and when the
    Member's role is anything else. *)
Theorem is_admin_iff (db : option store) (email : string) :
  exists b : bool,
    is_admin email db = (Ok b, db) /\
    (b = true <-> exists d, resolves db email d /\ has_role "admin" d) /\
    (no_member db email -> b = false) /\
    (forall d, resolves db email d -> ~ has_role "admin" d -> b = false).
Proof.
  rewrite is_admin_run.
  destruct (find_one (members db) {["email" := VStr email]}) as [m|] eqn:E.
  - pose proof (resolves_compute _ _ _ E) as Hm.
    exists (bool_decide (has_role "admin" m)). split; [done|]. split; [|split].
    + rewrite bool_decide_eq_true. split; [by exists m|].
      intros (d & Hd & Hr). by rewrite (resolves_fun _ _ _ _ Hm Hd).
    + intros Hn%find_one_email_None. congruence.
    + intros d Hd Hr. rewrite (resolves_fun _ _ _ _ Hm Hd).
      by apply bool_decide_eq_false.
  - exists false. split; [done|]. split; [|done].
    split; [discriminate|]. intros (d & Hd%member_by_email_Some & _).
    rewrite member_by_email_run in Hd. congruence.
Qed.

(** C10: without a store, [member_by_email] returns [None] and [is_admin]
    false for every email; the [is_admin] query reports false, and every
    admin-gated handler answers Forbidden, not Unavailable, whatever the
    header. *)
Theorem no_store_is_forbidden (email : string) (x_admin_email : option string)
  (target : string) (role subscription_status : option string)
  (now : option Z) (video : VideoCreate.t) (resource : ResourceCreate.t) :
  member_by_email email None = (Ok None, None) /\
  is_admin email None = (Ok false, None) /\
  admin_check email None
    = (Ok (<["email" := VStr email]> (<["is_admin" := VBool false]> ∅)), None) /\
  list_members x_admin_email None = (Raise (Forbidden "Admin only"), None) /\
  update_member target role subscription_status x_admin_email None
    = (Raise (Forbidden "Admin only"), None) /\
  add_video now video x_admin_email None = (Raise (Forbidden "Admin only"), None) /\
  add_resource now resource x_admin_email None
    = (Raise (Forbidden "Admin only"), None).
Proof.
  assert (not_admin x_admin_email None = (Ok true, None)) as Hg.
  { destruct x_admin_email as [e|]; [|done]. unfold not_admin.
    by destruct (truthy (Some e)). }
  repeat split; try done;
    unfold list_members, update_member, add_video, add_resource, bind;
    by rewrite Hg.
Qed.

(** C3: each admin-gated operation (member listing, member update, video
    creation, resource creation), called with a header that is missing or
    does not belong to a Member with role "admin", fails with Forbidden and
    leaves the store as it was. *)
Theorem admin_gate_forbidden (db : option store) (x_admin_email : option string)
  (target : string) (role subscription_status : option string)
  (now : option Z) (video : VideoCreate.t) (resource : ResourceCreate.t) :
  not_admin_header db x_admin_email ->
  list_members x_admin_email db = (Raise (Forbidden "Admin only"), db) /\
  update_member target role subscription_status x_admin_email db
    = (Raise (Forbidden "Admin only"), db) /\
  add_video now video x_admin_email db = (Raise (Forbidden "Admin only"), db) /\
  add_resource now resource x_admin_email db = (Raise (Forbidden "Admin only"), db).
Proof.
  intros Hg%not_admin_header_denied%not_admin_denied.
  repeat split;
    unfold list_members, update_member, add_video, add_resource, bind;
    by rewrite Hg.
Qed.

Lemma admin_gate_forbidden_witness :
  not_admin_header demo (Some "ann@x.com") /\
  update_member "bob@x.com" (Some "admin") None (Some "ann@x.com") demo
    = (Raise (Forbidden "Admin only"), demo) /\
  add_video None (VideoCreate.Build "Intro" "76979871" None None) None demo
    = (Raise (Forbidden "Admin only"), demo).
Proof.
  split; [exact ann_not_admin|]. split.
  - apply (admin_gate_forbidden demo (Some "ann@x.com") "bob@x.com" (Some "admin") None
             None (VideoCreate.Build "Intro" "76979871" None None)
             (ResourceCreate.Build "Pitch" "prompt" None None (Some []))).
    exact ann_not_admin.
  - apply (admin_gate_forbidden demo None "bob@x.com" None None
             None (VideoCreate.Build "Intro" "76979871" None None)
             (ResourceCreate.Build "Pitch" "prompt" None None (Some []))).
    by left.
Defined.

(** ** Subscriptions *)

(** C4: subscribing an email that no Member record carries fails with
    NotFound and writes nothing: the store after the call is the store
    before it. *)
Theorem subscribe_unknown_email (db : option store) (now : option Z)
  (payload : SubscribeRequest.t) :
  no_member db (SubscribeRequest.email payload) ->
  subscribe now payload db = (Raise NotFound, db).
Proof.
  intros H. unfold subscribe, bind. by rewrite (ensure_member_None _ _ H).
Qed.

Lemma subscribe_unknown_email_witness :
  subscribe (Some 40%Z) (SubscribeRequest.Build "zed@x.com" "invoice" (Some "Zed Ltd") None)
    demo = (Raise NotFound, demo).
Proof.
  apply (subscribe_unknown_email demo (Some 40%Z)
           (SubscribeRequest.Build "zed@x.com" "invoice" (Some "Zed Ltd") None)).
  exact zed_no_member.
Defined.

(** ** Member update *)

Lemma store_update_one_member st e u pre d post :
  resolves_at (Some st) e pre d post ->
  members_replaced st (store_update_one "member" {["email" := VStr e]} u st)
    (pre ++ set_fields u d :: post).
Proof.
  intros (Hl & Hd & Hpre). simpl in Hl. unfold store_update_one.
  unfold coll in Hl. destruct (colls st !! "member") as [l|] eqn:E; simpl in Hl.
  - subst l. rewrite update_first_email by done.
    split; [apply coll_insert_eq|]. split; [done|].
    intros c Hc. simpl. by rewrite lookup_insert_ne.
  - by destruct pre.
Qed.

Lemma store_update_one_no_member st e u :
  no_member (Some st) e -> store_update_one "member" {["email" := VStr e]} u st = st.
Proof.
  intros H. unfold store_update_one.
  destruct (colls st !! "member") as [l|] eqn:E; [|done].
  unfold no_member in H. simpl in H. rewrite (coll_Some _ _ _ E) in H.
  assert (update_first {["email" := VStr e]} u l = l) as ->.
  { clear E. induction H as [|a l Ha _ IH]; simpl; [done|].
    destruct (matches _ a) eqn:Em; [by apply matches_email in Em|]. by rewrite IH. }
  rewrite insert_id by done. by destruct st.
Qed.

Lemma lookup_set_fields (u : gmap string value) d k :
  body (set_fields u d) !! k
  = match u !! k with Some v => Some v | None => body d !! k end.
Proof.
  simpl. rewrite lookup_union. destruct (u !! k), (body d !! k); reflexivity.
Qed.

Lemma set_fields_same_except (u : gmap string value) keys d :
  (forall k, k ∉ keys -> u !! k = None) -> same_except keys d (set_fields u d).
Proof.
  intros H. repeat split. intros k Hk. simpl.
  rewrite lookup_union_r; [done|]. by apply H.
Qed.

(** The dictionary [updates] that [update_member] builds. *)
Lemma update_member_admin db x email role subscription_status d :
  admin_caller db x -> resolves db email d ->
  update_member email role subscription_status x db
  = let u0 : gmap string value :=
        match nonempty role with Some r => <["role" := VStr r]> ∅ | None => ∅ end in
    let u : gmap string value :=
        match nonempty subscription_status with
        | Some s => <["subscription_status" := VStr s]> u0
        | None => u0
        end in
    if bool_decide (u = ∅) then (Raise (BadRequest "No updates provided"), db)
    else (Ok (<["message" := VStr "Updated"]> ∅),
          store_update_one "member" {["email" := VStr email]} u <$> db).
Proof.
  intros Ha Hd. unfold update_member, bind. rewrite (not_admin_admin _ _ Ha).
  rewrite (ensure_member_Some _ _ _ Hd).
  destruct (resolves_store _ _ _ Hd) as [st ->].
  destruct role as [[|c r]|], subscription_status as [[|c' s]|]; simpl;
    try (rewrite bool_decide_eq_true_2 by done; reflexivity);
    rewrite bool_decide_eq_false_2 by apply insert_non_empty; reflexivity.
Qed.

(** C9: for an admin caller and an existing target, a supplied but empty
    role, with subscription_status absent or empty too, is treated as not
    supplied: the update fails with BadRequest "No updates provided" and
    leaves the store unchanged. *)
Theorem update_member_empty_role (db : option store) (email : string)
  (subscription_status x_admin_email : option string) (d : document N) :
  admin_caller db x_admin_email -> resolves db email d ->
  subscription_status = None \/ subscription_status = Some "" ->
  update_member email (Some "") subscription_status x_admin_email db
  = (Raise (BadRequest "No updates provided"), db).
Proof.
  intros Ha Hd Hs. rewrite (update_member_admin _ _ _ _ _ d Ha Hd).
  by destruct Hs as [-> | ->].
Qed.

Lemma update_member_empty_role_witness :
  update_member "ann@x.com" (Some "") (Some "") (Some "root@x.com") demo
  = (Raise (BadRequest "No updates provided"), demo).
Proof.
  apply (update_member_empty_role demo "ann@x.com" (Some "") (Some "root@x.com") ann_doc).
  - exact root_is_admin.
  - exact ann_resolves.
  - right. reflexivity.
Defined.

(** C5, as worded, fails: with role present but empty and no
    subscription_status, an admin's update of an existing member is not
    applied but rejected. *)
Lemma update_member_as_stated_counterexample :
  ~ update_member_as_stated demo "ann@x.com" (Some "") None (Some "root@x.com").
Proof.
  intros H. destruct (H root_is_admin) as (_ & _ & Hupd).
  destruct (Hupd [root_doc] ann_doc [bob_doc]) as (st & st' & d' & _ & Hrun & _).
  - split; [reflexivity|]. split; [reflexivity|].
    constructor; [discriminate|constructor].
  - left. eauto.
  - rewrite (update_member_admin _ _ _ _ _ ann_doc root_is_admin ann_resolves) in Hrun.
    discriminate Hrun.
Qed.

(** C5, amended: for an admin caller, the member update fails with NotFound
    when the target email resolves to no member; fails with BadRequest when
    neither role nor subscription_status is supplied as a non-empty
    string; and otherwise sets exactly the fields supplied as non-empty
    strings on the target member, whose other fields, like every other
    document of the store, are untouched. *)
Theorem update_member_partial (db : option store) (email : string)
  (role subscription_status x_admin_email : option string) :
  admin_caller db x_admin_email ->
  (no_member db email ->
   update_member email role subscription_status x_admin_email db
   = (Raise NotFound, db)) /\
  (forall d, resolves db email d ->
   nonempty role = None -> nonempty subscription_status = None ->
   update_member email role subscription_status x_admin_email db
   = (Raise (BadRequest "No updates provided"), db)) /\
  (forall pre d post, resolves_at db email pre d post ->
   is_Some (nonempty role) \/ is_Some (nonempty subscription_status) ->
   exists st st' d',
     db = Some st /\
     update_member email role subscription_status x_admin_email db
     = (Ok (<["message" := VStr "Updated"]> ∅), Some st') /\
     members_replaced st st' (pre ++ d' :: post) /\
     partial_update (nonempty role) (nonempty subscription_status) d d').
Proof.
  intros Ha. split; [|split].
  - intros Hn. unfold update_member, bind. rewrite (not_admin_admin _ _ Ha).
    by rewrite (ensure_member_None _ _ Hn).
  - intros d Hd Hr Hs. rewrite (update_member_admin _ _ _ _ _ d Ha Hd).
    by rewrite Hr, Hs.
  - intros pre d post Hat Hsup.
    assert (resolves db email d) as Hd by (by exists pre, post).
    destruct (resolves_store _ _ _ Hd) as [st ->].
    rewrite (update_member_admin _ _ _ _ _ d Ha Hd). cbv zeta.
    set (u := match nonempty subscription_status with
              | Some s => _ | None => _ end).
    assert (u <> ∅) as Hu.
    { subst u. destruct (nonempty subscription_status); [apply insert_non_empty|].
      destruct (nonempty role); [apply insert_non_empty|].
      destruct Hsup as [[? ?]|[? ?]]; discriminate. }
    rewrite bool_decide_eq_false_2 by done.
    exists st, (store_update_one "member" {["email" := VStr email]} u st),
      (set_fields u d).
    split; [done|]. split; [done|].
    split; [by apply store_update_one_member|].
    subst u. clear Hsup. unfold partial_update, field_update.
    destruct (nonempty role) as [r|], (nonempty subscription_status) as [s|];
      try done; (split; [|split]);
      rewrite ?lookup_set_fields; try by simplify_map_eq.
    all: apply set_fields_same_except; intros k Hk.
    all: apply not_elem_of_cons in Hk as [? [? _]%not_elem_of_cons].
    all: by simplify_map_eq.
Qed.

Lemma update_member_partial_witness :
  exists st' d',
    update_member "ann@x.com" (Some "admin") (Some "") (Some "root@x.com") demo
    = (Ok (<["message" := VStr "Updated"]> ∅), Some st') /\
    coll st' "member" = [root_doc; d'; bob_doc] /\
    body d' !! "role" = Some (VStr "admin") /\
    body d' !! "subscription_status" = Some (VStr "inactive") /\
    body d' !! "name" = Some (VStr "Ann").
Proof.
  destruct (update_member_partial demo "ann@x.com" (Some "admin") (Some "")
              (Some "root@x.com") root_is_admin) as (_ & _ & H).
  destruct (H [root_doc] ann_doc [bob_doc]) as
    (st & st' & d' & _ & Hrun & (Hm & _) & Hr & Hs & (_ & _ & Hk)).
  - split; [reflexivity|]. split; [reflexivity|].
    constructor; [discriminate|constructor].
  - left. simpl. eauto.
  - exists st', d'. split; [exact Hrun|]. split; [exact Hm|].
    split; [exact Hr|]. split; [exact Hs|].
    rewrite Hk; [reflexivity|]. vm_compute.
    intros E. inversion E as [|? ? ? E']; subst. inversion E' as [|? ? ? E'']; subst.
    inversion E''.
Defined.

(** ** Creating documents *)

Lemma store_insert_inserted now c data st :
  inserted st (store_insert now c data st) c (Document (next_oid st) now data).
Proof.
  split; [apply coll_insert_eq|]. split; [done|]. split; [done|].
  intros c' Hc. simpl. by rewrite lookup_insert_ne.
Qed.

Lemma inserted_members st st' c d' :
  c <> "member" -> inserted st st' c d' -> members (Some st') = members (Some st).
Proof. intros Hc (_ & _ & _ & H). simpl. unfold coll. by rewrite H. Qed.

Lemma member_exists_resolves db e :
  (exists d, d ∈ members db /\ has_email e d) -> exists d, resolves db e d.
Proof.
  intros (d & Hin & Hd). destruct (resolves_or_not db e) as [Hn|H]; [|done].
  unfold no_member in Hn. rewrite Forall_forall in Hn. by destruct (Hn d Hin).
Qed.

(** ** Registration *)

(** C6: registration with an email that an existing Member holds fails
    with Conflict and creates nothing; with a fresh email it inserts exactly
    one Member, with role "member", subscription_status "inactive", provider
    null and plan "$49/mo", and returns the identifier of the new document. *)
Theorem register_member_spec (st : store) (now : option Z) (payload : RegisterRequest.t) :
  ((exists d, d ∈ members (Some st) /\ has_email (RegisterRequest.email payload) d) ->
   register_member now payload (Some st) = (Raise Conflict, Some st)) /\
  (no_member (Some st) (RegisterRequest.email payload) ->
   exists st' d',
     register_member now payload (Some st)
     = (Ok (<["id" := VStr (str_oid (_id d'))]> (<["message" := VStr "Registered"]> ∅)),
        Some st') /\
     inserted st st' "member" d' /\
     created_at d' = now /\
     fresh_member (RegisterRequest.name payload) (RegisterRequest.email payload) d').
Proof.
  split.
  - intros [d Hd]%member_exists_resolves. unfold register_member, bind.
    by rewrite (member_by_email_Some _ _ _ Hd).
  - intros Hn. unfold register_member, bind. rewrite (member_by_email_None _ _ Hn).
    simpl. eexists (store_insert _ _ _ _), (Document (next_oid st) _ _).
    split; [reflexivity|].
    split; [apply store_insert_inserted|]. split; [done|].
    repeat split; by simplify_map_eq.
Qed.

(** Registering the same email twice on the example store: the first call
    succeeds, the second fails with Conflict. *)
Example register_twice :
  succeeded (fst (register_member None (RegisterRequest.Build "A" "a@x.com") demo)) = true /\
  fst (register_member None (RegisterRequest.Build "A2" "a@x.com")
         (snd (register_member None (RegisterRequest.Build "A" "a@x.com") demo)))
  = Raise Conflict.
Proof. split; vm_compute; reflexivity. Qed.

(** ** Posting messages *)

Lemma may_post_elem d :
  may_post d <->
  body d !! "subscription_status"
    ∈ [Some (VStr "active"); Some (VStr "past_due"); Some (VStr "pending")].
Proof.
  unfold may_post. rewrite !elem_of_cons, elem_of_nil. split.
  - intros (s & -> & Hs). rewrite !elem_of_cons, elem_of_nil in Hs.
    destruct Hs as [->|[->|[->|[]]]]; auto.
  - intros [H|[H|[H|[]]]]; eexists; (split; [exact H|]);
      rewrite !elem_of_cons; auto.
Qed.

(** C7: posting a message fails with NotFound when the author email
    resolves to no member, fails with Forbidden when the author's
    subscription_status is not one of "active", "past_due", "pending" (so for
    "inactive" and for "canceled"), and otherwise inserts exactly one Message
    with the author's email, the content and the channel, which defaults to
    "general". *)
Theorem post_message_spec (db : option store) (now : option Z) (payload : MessageCreate.t) :
  (no_member db (MessageCreate.member_email payload) ->
   post_message now payload db = (Raise NotFound, db)) /\
  (forall d, resolves db (MessageCreate.member_email payload) d ->
   ~ may_post d \/ body d !! "subscription_status" = Some (VStr "inactive")
   \/ body d !! "subscription_status" = Some (VStr "canceled") ->
   post_message now payload db = (Raise (Forbidden "Subscription required"), db)) /\
  (forall d, resolves db (MessageCreate.member_email payload) d -> may_post d ->
   exists st st' d',
     db = Some st /\
     post_message now payload db
     = (Ok (<["id" := VStr (str_oid (_id d'))]> (<["message" := VStr "Posted"]> ∅)),
        Some st') /\
     inserted st st' "message" d' /\
     created_at d' = now /\
     message_of payload d') /\
  (forall e c, MessageCreate.channel (MessageCreate.parse e c None) = "general").
Proof.
  split; [|split; [|split]].
  - intros Hn. unfold post_message, bind. by rewrite (ensure_member_None _ _ Hn).
  - intros d Hd Hs. unfold post_message, bind. rewrite (ensure_member_Some _ _ _ Hd).
    rewrite bool_decide_eq_false_2; [done|]. rewrite <- may_post_elem.
    destruct Hs as [Hs|Hs]; [done|]. intros (s & Hs' & Hin).
    rewrite !elem_of_cons, elem_of_nil in Hin.
    destruct Hs as [Hs|Hs]; rewrite Hs in Hs'; injection Hs' as <-;
      destruct Hin as [|[|[|[]]]]; discriminate.
  - intros d Hd Hs. destruct (resolves_store _ _ _ Hd) as [st ->].
    unfold post_message, bind. rewrite (ensure_member_Some _ _ _ Hd).
    rewrite bool_decide_eq_true_2 by (by apply may_post_elem). simpl.
    eexists st, (store_insert _ _ _ _), (Document (next_oid st) _ _).
    split; [done|]. split; [reflexivity|].
    split; [apply store_insert_inserted|]. split; [done|].
    unfold message_of, MessageCreate.model_dump. repeat split; by simplify_map_eq.
  - done.
Qed.

(** On the example store Ann, whose subscription is inactive, may not post;
    Bob, whose subscription is active, may. *)
Example post_message_demo :
  fst (post_message None (MessageCreate.parse "ann@x.com" "hello" None) demo)
  = Raise (Forbidden "Subscription required") /\
  succeeded (fst (post_message None (MessageCreate.parse "bob@x.com" "hello" None) demo))
  = true.
Proof. split; vm_compute; reflexivity. Qed.

(** ** Provider names *)

Lemma lower_ascii_nocase a b :
  is_upper b = false -> lower_ascii a = b <-> ascii_nocase_eq a b = true.
Proof.
  intros Hb. unfold lower_ascii, ascii_nocase_eq. rewrite Hb. fold (is_upper a).
  rewrite andb_false_l, orb_false_r.
  destruct (is_upper a) eqn:Ha.
  - rewrite andb_true_l, bool_decide_eq_false_2 by congruence.
    rewrite orb_false_l, Nat.eqb_eq.
    unfold is_upper in Ha. apply andb_true_iff in Ha as [_ Ha%Nat.leb_le].
    split.
    + intros <-. rewrite nat_ascii_embedding; lia.
    + intros H. rewrite H. apply ascii_nat_embedding.
  - rewrite andb_false_l, orb_false_r. by rewrite bool_decide_eq_true.
Qed.

Lemma lower_nocase t : forall p,
  no_upper t = true -> lower p = t <-> nocase_eq p t = true.
Proof.
  induction t as [|b t IH]; intros [|a p] Ht; simpl; try done.
  apply andb_true_iff in Ht as [Hb%negb_true_iff Ht].
  rewrite andb_true_iff, <- (IH p Ht), <- (lower_ascii_nocase a b Hb).
  split; [by intros [= -> ->] | by intros [-> ->]].
Qed.

(** ** Subscription initiation *)

Lemma set_fields_subscribed status provider d :
  subscribed status provider d
    (set_fields (<["subscription_status" := VStr status]>
                   (<["provider" := VStr provider]> ∅)) d).
Proof.
  split; [|split].
  - rewrite lookup_set_fields. by simplify_map_eq.
  - rewrite lookup_set_fields. by simplify_map_eq.
  - apply set_fields_same_except. intros k Hk.
    apply not_elem_of_cons in Hk as [? [? _]%not_elem_of_cons]. by simplify_map_eq.
Qed.

Lemma subscribe_checkout db now payload d provider url :
  resolves db (SubscribeRequest.email payload) d ->
  lower (SubscribeRequest.provider payload) = provider ->
  (provider = "stripe" /\ url = "https://buy.stripe.com/test_12345") \/
  (provider = "paypal" /\ url = "https://www.paypal.com/checkoutnow?token=TEST123") ->
  subscribe now payload db
  = (Ok (subscription_response "active" (VStr url)),
     store_update_one "member" {["email" := VStr (SubscribeRequest.email payload)]}
       (<["subscription_status" := VStr "active"]> (<["provider" := VStr provider]> ∅))
     <$> db).
Proof.
  intros Hd Hl Hp. destruct (resolves_store _ _ _ Hd) as [st ->].
  unfold subscribe, bind. rewrite (ensure_member_Some _ _ _ Hd), Hl.
  by destruct Hp as [[-> ->]|[-> ->]].
Qed.

Lemma subscribe_invoice db now payload d :
  resolves db (SubscribeRequest.email payload) d ->
  lower (SubscribeRequest.provider payload) = "invoice" ->
  subscribe now payload db
  = (Ok (subscription_response "pending" VNone),
     (fun st =>
        store_update_one "member" {["email" := VStr (SubscribeRequest.email payload)]}
          (<["subscription_status" := VStr "pending"]> (<["provider" := VStr "invoice"]> ∅))
          (store_insert now "invoicerequest"
             (<["member_email" := VStr (SubscribeRequest.email payload)]>
                (<["company" := of_opt (SubscribeRequest.company payload)]>
                   (<["notes" := of_opt (SubscribeRequest.notes payload)]>
                      (<["status" := VStr "requested"]> ∅)))) st))
     <$> db).
Proof.
  intros Hd Hl. destruct (resolves_store _ _ _ Hd) as [st ->].
  unfold subscribe, bind. by rewrite (ensure_member_Some _ _ _ Hd), Hl.
Qed.

(** C2: for an existing member and a provider that is stripe, paypal or
    invoice up to case, [subscribe] succeeds.  For stripe and paypal it
    returns the provider's fixed, non-null checkout URL, creates no
    InvoiceRequest (only the member document changes) and sets the member's
    subscription_status to "active"; for invoice it returns a null checkout
    URL, creates exactly one InvoiceRequest with status "requested" carrying
    the member's email, the company and the notes, and sets
    subscription_status to "pending".  In each branch the member's provider
    field is set to the lower-case provider name. *)
Theorem subscribe_spec (db : option store) (now : option Z) (payload : SubscribeRequest.t)
  (pre : list (document N)) (d : document N) (post : list (document N)) :
  resolves_at db (SubscribeRequest.email payload) pre d post ->
  (nocase_eq (SubscribeRequest.provider payload) "stripe" = true ->
   exists st st' d',
     db = Some st /\
     subscribe now payload db
     = (Ok (subscription_response "active" (VStr "https://buy.stripe.com/test_12345")),
        Some st') /\
     members_replaced st st' (pre ++ d' :: post) /\
     subscribed "active" "stripe" d d') /\
  (nocase_eq (SubscribeRequest.provider payload) "paypal" = true ->
   exists st st' d',
     db = Some st /\
     subscribe now payload db
     = (Ok (subscription_response "active"
              (VStr "https://www.paypal.com/checkoutnow?token=TEST123")),
        Some st') /\
     members_replaced st st' (pre ++ d' :: post) /\
     subscribed "active" "paypal" d d') /\
  (nocase_eq (SubscribeRequest.provider payload) "invoice" = true ->
   exists st st' d' inv,
     db = Some st /\
     subscribe now payload db = (Ok (subscription_response "pending" VNone), Some st') /\
     coll st' "member" = (pre ++ d' :: post)%list /\
     subscribed "pending" "invoice" d d' /\
     coll st' "invoicerequest" = (coll st "invoicerequest" ++ [inv])%list /\
     _id inv = next_oid st /\ created_at inv = now /\
     invoice_request_of payload inv /\
     next_oid st' = N.succ (next_oid st) /\
     forall c, c <> "member" -> c <> "invoicerequest" -> colls st' !! c = colls st !! c).
Proof.
  intros Hat.
  assert (resolves db (SubscribeRequest.email payload) d) as Hd by (by exists pre, post).
  destruct (resolves_store _ _ _ Hd) as [st ->].
  split; [|split].
  - intros Hl%lower_nocase; [|done].
    rewrite (subscribe_checkout _ _ _ d "stripe" "https://buy.stripe.com/test_12345")
      by auto.
    eexists st, _, _. split; [done|]. split; [reflexivity|].
    split; [by apply store_update_one_member|]. apply set_fields_subscribed.
  - intros Hl%lower_nocase; [|done].
    rewrite (subscribe_checkout _ _ _ d "paypal"
               "https://www.paypal.com/checkoutnow?token=TEST123") by auto.
    eexists st, _, _. split; [done|]. split; [reflexivity|].
    split; [by apply store_update_one_member|]. apply set_fields_subscribed.
  - intros Hl%lower_nocase; [|done].
    rewrite (subscribe_invoice _ _ _ d) by done. cbn [fmap option_fmap option_map].
    set (data := <["member_email" := _]> _).
    pose proof (store_insert_inserted now "invoicerequest" data st) as Hins.
    set (st1 := store_insert now "invoicerequest" data st) in *.
    assert (resolves_at (Some st1) (SubscribeRequest.email payload) pre d post) as Hat1.
    { destruct Hat as (Hm & ?). split; [|done].
      by rewrite (inserted_members st st1 "invoicerequest" _ ltac:(done) Hins). }
    pose proof (store_update_one_member st1 _
                  (<["subscription_status" := VStr "pending"]>
                     (<["provider" := VStr "invoice"]> ∅)) _ _ _ Hat1) as (Hm & Hn & Hc).
    destruct Hins as (Hi & Hid & Hn1 & Hc1).
    eexists st, _, _, _. split; [done|]. split; [reflexivity|].
    split; [exact Hm|]. split; [apply set_fields_subscribed|].
    split; [unfold coll in *; by rewrite Hc|]. split; [exact Hid|]. split; [done|].
    split; [subst data; repeat split; by simplify_map_eq|].
    split; [congruence|]. intros c H1 H2. rewrite Hc by done. by apply Hc1.
Qed.

Lemma subscribe_spec_witness :
  exists st' d' inv,
    subscribe (Some 40%Z)
      (SubscribeRequest.Build "ann@x.com" "INVOICE" (Some "Ann Ltd") None) demo
    = (Ok (subscription_response "pending" VNone), Some st') /\
    coll st' "member" = [root_doc; d'; bob_doc] /\
    body d' !! "subscription_status" = Some (VStr "pending") /\
    body d' !! "provider" = Some (VStr "invoice") /\
    coll st' "invoicerequest" = [inv] /\
    body inv !! "company" = Some (VStr "Ann Ltd").
Proof.
  destruct (subscribe_spec demo (Some 40%Z)
              (SubscribeRequest.Build "ann@x.com" "INVOICE" (Some "Ann Ltd") None)
              [root_doc] ann_doc [bob_doc]) as (_ & _ & H).
  - split; [reflexivity|]. split; [reflexivity|].
    constructor; [discriminate|constructor].
  - destruct (H eq_refl) as
      (st & st' & d' & inv & Hst & Hrun & Hm & (Hs & Hp & _) & Hi & _ & _ & Hinv & _).
    injection Hst as <-. destruct Hinv as (_ & Hc & _).
    exists st', d', inv. repeat (split; [assumption|]). exact Hc.
Defined.

(** ** Message listing *)

Section Sorting.
Context {A : Type} (key : A -> Z).

Lemma insert_desc_perm x l : Permutation (insert_desc key x l) (x :: l).
Proof.
  induction l as [|y l IH]; simpl; [done|].
  destruct (key x <? key y)%Z; [|done].
  rewrite IH. apply perm_swap.
Qed.

Lemma sort_reverse_perm l : Permutation (sort_reverse key l) l.
Proof.
  induction l as [|x l IH]; simpl; [done|].
  fold (sort_reverse key l). by rewrite insert_desc_perm, IH.
Qed.

Lemma insert_desc_sorted x l :
  Sorted (ge_key key) l -> Sorted (ge_key key) (insert_desc key x l).
Proof.
  induction 1 as [|y l Hl IH Hy]; simpl.
  - by repeat constructor.
  - destruct (key x <? key y)%Z eqn:E.
    + constructor; [done|].
      destruct l as [|z l]; simpl in *.
      * constructor. unfold ge_key. lia.
      * destruct (key x <? key z)%Z.
        -- constructor. by inversion Hy.
        -- constructor. unfold ge_key. lia.
    + constructor; [by constructor|]. constructor. unfold ge_key. lia.
Qed.

Lemma sort_reverse_sorted l : StronglySorted (ge_key key) (sort_reverse key l).
Proof.
  apply Sorted_StronglySorted.
  - intros a b c. unfold ge_key. lia.
  - induction l as [|x l IH]; simpl; [constructor|].
    by apply insert_desc_sorted.
Qed.
End Sorting.

Lemma list_messages_run st channel limit :
  list_messages channel limit (Some st)
  = (Ok (sort_reverse sort_key (stringify <$> take limit (channel_messages st channel))),
     Some st).
Proof.
  unfold list_messages, bind, get_documents, channel_messages, ret. simpl.
  rewrite (list_filter_iff (fun d => matches {["channel" := VStr channel]} d = true)
             (fun d => body d !! "channel" = Some (VStr channel))); [done|].
  intros d. apply matches_singleton.
Qed.

Lemma channel_messages_channel st channel d :
  d ∈ channel_messages st channel -> body d !! "channel" = Some (VStr channel).
Proof. unfold channel_messages. rewrite list_elem_of_filter. tauto. Qed.

(** C1, as worded, fails: on the example store, whose channel "x" holds
    three messages created at times 10, 20 and 30, listing with limit 2
    returns those of times 20 and 10; the newest one is left out. *)
Lemma list_messages_as_stated_counterexample :
  ~ list_messages_as_stated demo_store "x" 2.
Proof.
  intros (msgs & Hrun & _ & _ & _ & Hrecent).
  rewrite list_messages_run in Hrun. injection Hrun as <-.
  set (m20 := stringify (message_doc 4 (Some 20%Z) "bob@x.com" "two" "x")).
  set (m30 := stringify (message_doc 5 (Some 30%Z) "bob@x.com" "three" "x")).
  assert (newer_eq m20 m30) as H; [|unfold newer_eq in H; simpl in H; lia].
  apply Hrecent.
  - vm_compute. do 2 apply list_elem_of_further. apply list_elem_of_here.
  - vm_compute. intros Hin.
    apply elem_of_cons in Hin as [Hin|Hin]; [discriminate Hin|].
    apply elem_of_cons in Hin as [Hin|Hin]; [discriminate Hin|].
    by apply elem_of_nil in Hin.
  - vm_compute. apply list_elem_of_here.
Qed.

(** C1, amended: for every channel X and limit N, listing messages returns
    at most N messages of channel X, namely the first N of that channel in
    store order, ordered newest-first by creation time, a message lacking a
    creation timestamp counting as created at time 0 (so that no message
    with a positive creation time comes after it); the store is unchanged. *)
Theorem list_messages_spec (st : store) (channel : string) (limit : nat) :
  exists msgs,
    list_messages channel limit (Some st) = (Ok msgs, Some st) /\
    length msgs = Nat.min limit (length (channel_messages st channel)) /\
    Permutation msgs (stringify <$> take limit (channel_messages st channel)) /\
    (forall m, m ∈ msgs -> body m !! "channel" = Some (VStr channel)) /\
    StronglySorted newer_eq msgs /\
    (forall l1 a l2, msgs = (l1 ++ a :: l2)%list -> created_at a = None ->
       Forall (fun b => forall t, created_at b = Some t -> (t <= 0)%Z) l2).
Proof.
  rewrite list_messages_run.
  set (got := take limit (channel_messages st channel)).
  pose proof (sort_reverse_perm sort_key (stringify <$> got)) as Hperm.
  pose proof (sort_reverse_sorted sort_key (stringify <$> got)) as Hsorted.
  eexists. split; [reflexivity|]. split; [|split; [|split; [|split]]].
  - rewrite Hperm, length_fmap. subst got. apply length_take.
  - exact Hperm.
  - intros m Hm. rewrite Hperm in Hm.
    apply list_elem_of_fmap in Hm as (d & -> & Hd). simpl.
    apply (channel_messages_channel st). subst got.
    by apply (subseteq_take limit).
  - exact Hsorted.
  - intros l1 a l2 Hl Ha. rewrite Hl in Hsorted.
    apply StronglySorted_app_1_r in Hsorted.
    apply StronglySorted_inv in Hsorted as [_ Hall].
    eapply Forall_impl; [exact Hall|]. intros b Hb t Ht. simpl in Hb.
    unfold ge_key, sort_key in Hb. by rewrite Ha, Ht in Hb.
Qed.

(** With three messages in channel "x" and limit 2, exactly two are
    returned, newest first among those two. *)
Example list_messages_three_two :
  (fun r => match r with Ok l => Some (created_at <$> l) | Raise _ => None end)
    (fst (list_messages "x" 2 demo)) = Some [Some 20%Z; Some 10%Z].
Proof. vm_compute. reflexivity. Qed.

(** * Further properties *)

(** ** The state a handler leaves *)

Ltac run_store :=
  cbn [create_document db_update_one db_find_one get_documents get_db ret raise
       fst snd].

Lemma not_admin_run x db : exists b, not_admin x db = (Ok b, db).
Proof.
  destruct x as [e|]; [|by exists true]. unfold not_admin.
  destruct (truthy (Some e)); [|by exists true].
  unfold bind. rewrite is_admin_run. eauto.
Qed.

Lemma ensure_member_run e db :
  ensure_member e db = (Raise NotFound, db) \/
  exists d, resolves db e d /\ ensure_member e db = (Ok d, db).
Proof.
  destruct (resolves_or_not db e) as [Hn|[d Hd]].
  - left. by apply ensure_member_None.
  - right. exists d. split; [done|]. by apply ensure_member_Some.
Qed.

Lemma members_store_insert now c data st :
  members (Some (store_insert now c data st))
  = if decide (c = "member")
    then (members (Some st) ++ [Document (next_oid st) now data])%list
    else members (Some st).
Proof.
  simpl. unfold coll at 1. simpl. case_decide as Hc.
  - subst c. by rewrite lookup_insert_eq.
  - by rewrite lookup_insert_ne.
Qed.

Lemma members_store_update_one f u st :
  members (Some (store_update_one "member" f u st))
  = update_first f u (members (Some st)).
Proof.
  simpl. unfold store_update_one, coll.
  destruct (colls st !! "member") as [l|] eqn:E; simpl.
  - by rewrite lookup_insert_eq.
  - by rewrite E.
Qed.

Lemma email_view_update_first f u l :
  keeps_email u ->
  (fun d => body d !! "email") <$> update_first f u l
  = (fun d => body d !! "email") <$> l.
Proof.
  intros Hu. induction l as [|d l IH]; [done|]. cbn [update_first].
  destruct (matches f d); rewrite !fmap_cons; [|by rewrite IH].
  f_equal. simpl. by rewrite lookup_union_r.
Qed.

Lemma auth_view_update_first f u l :
  keeps_email u -> u !! "role" = None ->
  (fun d => (body d !! "email", body d !! "role")) <$> update_first f u l
  = (fun d => (body d !! "email", body d !! "role")) <$> l.
Proof.
  intros Hu Hr. induction l as [|d l IH]; [done|]. cbn [update_first].
  destruct (matches f d); rewrite !fmap_cons; [|by rewrite IH].
  f_equal. simpl. by rewrite !lookup_union_r.
Qed.

Lemma subscribe_invalid_run now payload db d :
  resolves db (SubscribeRequest.email payload) d ->
  lower (SubscribeRequest.provider payload) ∉ ["stripe"; "paypal"; "invoice"] ->
  subscribe now payload db = (Raise (BadRequest "Invalid provider"), db).
Proof.
  intros Hd Hp. unfold subscribe, bind. rewrite (ensure_member_Some _ _ _ Hd).
  by rewrite bool_decide_eq_false_2.
Qed.

(** What [subscribe] leaves of the Member collection, whatever the call. *)
Lemma subscribe_members now payload db :
  members (snd (subscribe now payload db)) = members db \/
  exists f u, keeps_email u /\ u !! "role" = None /\
              members (snd (subscribe now payload db)) = update_first f u (members db).
Proof.
  destruct (resolves_or_not db (SubscribeRequest.email payload)) as [Hn|[d Hd]].
  { left. unfold subscribe, bind. by rewrite (ensure_member_None _ _ Hn). }
  destruct (decide (lower (SubscribeRequest.provider payload)
                      ∈ ["stripe"; "paypal"; "invoice"])) as [Hp|Hp].
  2: { left. by rewrite (subscribe_invalid_run _ _ _ d). }
  destruct (resolves_store _ _ _ Hd) as [st ->].
  right. rewrite !elem_of_cons, elem_of_nil in Hp.
  destruct Hp as [Hp|[Hp|[Hp|[]]]].
  - rewrite (subscribe_checkout _ _ _ d "stripe" "https://buy.stripe.com/test_12345")
      by auto.
    eexists _, _. split; [|split; [|apply members_store_update_one]]; done.
  - rewrite (subscribe_checkout _ _ _ d "paypal"
               "https://www.paypal.com/checkoutnow?token=TEST123") by auto.
    eexists _, _. split; [|split; [|apply members_store_update_one]]; done.
  - rewrite (subscribe_invoice _ _ _ d) by done.
    eexists _, _. split; [|split]; cycle 2.
    + cbn [fmap option_fmap option_map snd].
      rewrite members_store_update_one, members_store_insert.
      by rewrite decide_False by done.
    + done.
    + done.
Qed.

Lemma admin_caller_or_not db x : admin_caller db x \/ ~ admin_caller db x.
Proof.
  destruct x as [e|]; [|right; by intros (? & ? & ? & _)].
  destruct (decide (e = "")) as [->|He].
  { right. intros (? & ? & [= <-] & ? & _). done. }
  destruct (resolves_or_not db e) as [Hn|[d Hd]].
  - right. intros (e' & d & [= <-] & _ & Hd%member_by_email_Some & _).
    rewrite (member_by_email_None _ _ Hn) in Hd. discriminate.
  - destruct (decide (has_role "admin" d)) as [Hr|Hr].
    + left. by exists e, d.
    + right. intros (e' & d' & [= <-] & _ & Hd' & Hr').
      by rewrite (resolves_fun _ _ _ _ Hd Hd') in Hr.
Qed.

Lemma update_member_denied email role subscription_status x db :
  ~ admin_caller db x ->
  update_member email role subscription_status x db
  = (Raise (Forbidden "Admin only"), db).
Proof.
  intros H%not_admin_denied. unfold update_member, bind. by rewrite H.
Qed.

Lemma update_member_not_found email role subscription_status x db :
  admin_caller db x -> no_member db email ->
  update_member email role subscription_status x db = (Raise NotFound, db).
Proof.
  intros Ha Hn. unfold update_member, bind. rewrite (not_admin_admin _ _ Ha).
  by rewrite (ensure_member_None _ _ Hn).
Qed.

(** What [update_member] leaves of the Member collection. *)
Lemma update_member_members email role subscription_status x db :
  members (snd (update_member email role subscription_status x db)) = members db \/
  exists f u, keeps_email u /\
              members (snd (update_member email role subscription_status x db))
              = update_first f u (members db).
Proof.
  destruct (admin_caller_or_not db x) as [Ha|Ha].
  2: { left. by rewrite update_member_denied. }
  destruct (resolves_or_not db email) as [Hn|[d Hd]].
  { left. by rewrite update_member_not_found. }
  rewrite (update_member_admin _ _ _ _ _ d Ha Hd). cbv zeta.
  destruct (resolves_store _ _ _ Hd) as [st ->].
  case_bool_decide as Hu; [by left|]. right.
  eexists _, _. split; [|apply members_store_update_one].
  unfold keeps_email.
  destruct (nonempty role), (nonempty subscription_status); by simplify_map_eq.
Qed.

(** What [register_member] leaves of the Member collection. *)
Lemma register_member_members now payload db :
  members (snd (register_member now payload db)) = members db \/
  no_member db (RegisterRequest.email payload) /\
  exists d', fresh_member (RegisterRequest.name payload) (RegisterRequest.email payload) d' /\
             members (snd (register_member now payload db)) = (members db ++ [d'])%list.
Proof.
  unfold register_member, bind. rewrite member_by_email_run.
  destruct (find_one _ _) as [m|] eqn:E; [by left|].
  destruct db as [st|]; [|by left]. right.
  split; [by apply no_member_compute|]. run_store.
  eexists. split; [|by rewrite members_store_insert].
  repeat split; by simplify_map_eq.
Qed.

Lemma post_message_members now payload db :
  members (snd (post_message now payload db)) = members db.
Proof.
  unfold post_message, bind.
  destruct (ensure_member_run (MessageCreate.member_email payload) db)
    as [->|(d & Hd & ->)]; [done|].
  destruct (resolves_store _ _ _ Hd) as [st ->].
  case_bool_decide; cbn [negb]; run_store; [|done].
  by rewrite members_store_insert.
Qed.

Lemma add_video_members now payload x db :
  members (snd (add_video now payload x db)) = members db.
Proof.
  unfold add_video, bind. destruct (not_admin_run x db) as [[|] ->]; [done|].
  destruct db as [st|]; [|done]. run_store. by rewrite members_store_insert.
Qed.

Lemma add_resource_members now payload x db :
  members (snd (add_resource now payload x db)) = members db.
Proof.
  unfold add_resource, bind. destruct (not_admin_run x db) as [[|] ->]; [done|].
  destruct db as [st|]; [|done]. run_store. by rewrite members_store_insert.
Qed.

Lemma bob_resolves : resolves demo "bob@x.com" bob_doc.
Proof. apply resolves_compute. reflexivity. Defined.

Lemma demo_unique_emails : unique_emails demo.
Proof.
  intros i j e. unfold email_view. simpl.
  destruct i as [|[|[|i]]], j as [|[|[|j]]]; simpl; try done;
    intros [= <-]; discriminate.
Defined.

(** ** Invalid provider *)

(** X1: for an existing member, a provider that is none of stripe, paypal,
    invoice up to case is rejected with BadRequest "Invalid provider", and
    nothing is written. *)
Theorem subscribe_invalid_provider (db : option store) (now : option Z)
  (payload : SubscribeRequest.t) (d : document N) :
  resolves db (SubscribeRequest.email payload) d ->
  nocase_eq (SubscribeRequest.provider payload) "stripe" = false ->
  nocase_eq (SubscribeRequest.provider payload) "paypal" = false ->
  nocase_eq (SubscribeRequest.provider payload) "invoice" = false ->
  subscribe now payload db = (Raise (BadRequest "Invalid provider"), db).
Proof.
  intros Hd H1 H2 H3. apply (subscribe_invalid_run _ _ _ d Hd).
  rewrite !elem_of_cons, elem_of_nil.
  intros [H|[H|[H|[]]]]; apply lower_nocase in H; try done; congruence.
Qed.

Lemma subscribe_invalid_provider_witness :
  subscribe None (SubscribeRequest.Build "ann@x.com" "Bitcoin" None None) demo
  = (Raise (BadRequest "Invalid provider"), demo).
Proof.
  apply (subscribe_invalid_provider demo None
           (SubscribeRequest.Build "ann@x.com" "Bitcoin" None None) ann_doc).
  - exact ann_resolves.
  - reflexivity.
  - reflexivity.
  - reflexivity.
Defined.

(** ** Email uniqueness *)

Lemma email_view_members db db' : members db' = members db -> email_view db' = email_view db.
Proof. unfold email_view. by intros ->. Qed.

Lemma no_member_view db e : no_member db e -> Some (VStr e) ∉ email_view db.
Proof.
  unfold no_member, email_view. rewrite Forall_forall. intros H Hin.
  apply list_elem_of_fmap in Hin as (d & Hd & Hin). by apply (H d).
Qed.

Lemma unique_snoc (v : list (option value)) e :
  (forall i j e', v !! i = Some (Some (VStr e')) -> v !! j = Some (Some (VStr e')) -> i = j) ->
  Some (VStr e) ∉ v ->
  forall i j e', (v ++ [Some (VStr e)])%list !! i = Some (Some (VStr e')) ->
                 (v ++ [Some (VStr e)])%list !! j = Some (Some (VStr e')) -> i = j.
Proof.
  intros Hu Hn i j e' Hi Hj.
  apply lookup_app_Some in Hi as [Hi|[Hli Hi]];
    apply lookup_app_Some in Hj as [Hj|[Hlj Hj]].
  - by apply (Hu i j e').
  - apply list_lookup_singleton_Some in Hj as [_ [= <-]].
    destruct Hn. by apply list_elem_of_lookup_2 in Hi.
  - apply list_lookup_singleton_Some in Hi as [_ [= <-]].
    destruct Hn. by apply list_elem_of_lookup_2 in Hj.
  - apply list_lookup_singleton_Some in Hi as [Hi _].
    apply list_lookup_singleton_Some in Hj as [Hj _]. lia.
Qed.

(** X2: the handlers keep emails unique.  When every email is carried by
    at most one Member, it is still so after any call of [register_member],
    [update_member], [subscribe], [post_message], [add_video] or
    [add_resource], whether the call succeeds or raises. *)
Theorem unique_emails_preserved (db : option store) (now : option Z)
  (reg : RegisterRequest.t) (email : string) (role subscription_status : option string)
  (x_admin_email : option string) (sub : SubscribeRequest.t) (msg : MessageCreate.t)
  (video : VideoCreate.t) (resource : ResourceCreate.t) :
  unique_emails db ->
  unique_emails (snd (register_member now reg db)) /\
  unique_emails (snd (update_member email role subscription_status x_admin_email db)) /\
  unique_emails (snd (subscribe now sub db)) /\
  unique_emails (snd (post_message now msg db)) /\
  unique_emails (snd (add_video now video x_admin_email db)) /\
  unique_emails (snd (add_resource now resource x_admin_email db)).
Proof.
  intros Hu. unfold unique_emails in *. repeat split.
  - destruct (register_member_members now reg db) as [H|(Hn & d' & Hf & H)].
    + by rewrite (email_view_members _ _ H).
    + unfold email_view at 1 2. rewrite H, fmap_app. simpl.
      destruct Hf as (_ & -> & _). apply unique_snoc; [done|].
      by apply no_member_view.
  - destruct (update_member_members email role subscription_status x_admin_email db)
      as [H|(f & u & Hk & H)].
    + by rewrite (email_view_members _ _ H).
    + unfold email_view at 1 2. by rewrite H, email_view_update_first.
  - destruct (subscribe_members now sub db) as [H|(f & u & Hk & _ & H)].
    + by rewrite (email_view_members _ _ H).
    + unfold email_view at 1 2. by rewrite H, email_view_update_first.
  - by rewrite (email_view_members _ _ (post_message_members now msg db)).
  - by rewrite (email_view_members _ _ (add_video_members now video x_admin_email db)).
  - by rewrite (email_view_members _ _ (add_resource_members now resource x_admin_email db)).
Qed.

Lemma unique_emails_preserved_witness :
  unique_emails (snd (register_member None (RegisterRequest.Build "Cy" "cy@x.com") demo)) /\
  unique_emails
    (snd (subscribe None (SubscribeRequest.Build "ann@x.com" "stripe" None None) demo)).
Proof.
  pose proof (unique_emails_preserved demo None (RegisterRequest.Build "Cy" "cy@x.com")
                "ann@x.com" None None None
                (SubscribeRequest.Build "ann@x.com" "stripe" None None)
                (MessageCreate.Build "bob@x.com" "hi" "x")
                (VideoCreate.Build "Intro" "1" None None)
                (ResourceCreate.Build "Pitch" "prompt" None None None)
                demo_unique_emails) as (H1 & _ & H3 & _).
  exact (conj H1 H3).
Defined.

(** With unique emails, an email resolves to a member exactly when that
    member is in the collection and carries it. *)
Lemma unique_resolves db e d :
  unique_emails db -> resolves db e d <-> d ∈ members db /\ has_email e d.
Proof.
  intros Hu. split.
  - intros (pre & post & Hl & Hd & _). split; [|done]. rewrite Hl.
    apply elem_of_app. right. apply list_elem_of_here.
  - intros [Hin Hd]. destruct (member_exists_resolves db e) as [d' Hd']; [eauto|].
    destruct Hd' as (pre & post & Hl & Hd' & Hpre).
    apply list_elem_of_lookup in Hin as [i Hi].
    assert (members db !! length pre = Some d') as Hj.
    { rewrite Hl. by apply list_lookup_middle. }
    assert (i = length pre) as ->.
    { apply (Hu i (length pre) e); unfold email_view; rewrite list_lookup_fmap.
      - by rewrite Hi; simpl; rewrite Hd.
      - by rewrite Hj; simpl; rewrite Hd'. }
    assert (d = d') as -> by congruence. by exists pre, post.
Qed.

(** X3: when emails are unique, [is_admin] is true exactly when some Member
    carries the email and has role "admin" (no matter where it stands in the
    collection). *)
Theorem is_admin_unique (db : option store) (email : string) :
  unique_emails db ->
  exists b : bool,
    is_admin email db = (Ok b, db) /\
    (b = true <->
     exists d, d ∈ members db /\ has_email email d /\ has_role "admin" d).
Proof.
  intros Hu. rewrite is_admin_run. eexists. split; [reflexivity|].
  destruct (find_one _ _) as [m|] eqn:E.
  - apply resolves_compute in E. rewrite bool_decide_eq_true. split.
    + intros Hr. exists m. apply (unique_resolves _ _ _ Hu) in E. tauto.
    + intros (d & Hin & Hd & Hr).
      assert (resolves db email d) as Hd' by (by apply unique_resolves).
      by rewrite (resolves_fun _ _ _ _ E Hd').
  - split; [discriminate|]. intros (d & Hin & Hd & _).
    apply find_one_email_None in E. rewrite Forall_forall in E. by destruct (E d).
Qed.

Lemma is_admin_unique_witness :
  is_admin "root@x.com" demo = (Ok true, demo).
Proof.
  destruct (is_admin_unique demo "root@x.com" demo_unique_emails) as (b & Hrun & Hb).
  rewrite Hrun. f_equal. f_equal. apply Hb.
  exists root_doc. split; [apply list_elem_of_here|]. split; reflexivity.
Defined.

(** ** Who is admin *)

Lemma is_admin_view e db : is_admin e db = (Ok (admin_of (auth_view db) e), db).
Proof.
  rewrite is_admin_run. f_equal. f_equal. unfold auth_view.
  induction (members db) as [|d l IH]; [done|].
  rewrite find_one_cons, fmap_cons. cbn [admin_of].
  destruct (matches _ d) eqn:E.
  - apply matches_email in E. unfold has_role, has_email in *.
    repeat case_bool_decide; tauto.
  - assert (~ has_email e d) as E' by (intros H%matches_email; congruence).
    unfold has_email in E'. case_bool_decide; tauto.
Qed.

Lemma admin_of_snoc_member v e0 e :
  admin_of (v ++ [(Some (VStr e0), Some (VStr "member"))]) e = admin_of v e.
Proof.
  induction v as [|[e' r] v IH]; simpl.
  - by case_bool_decide.
  - by rewrite IH.
Qed.

Lemma auth_view_members db db' : members db' = members db -> auth_view db' = auth_view db.
Proof. unfold auth_view. by intros ->. Qed.

(** X4: only [update_member] can change who is admin.  For every email, the
    answer of [is_admin] is the same after any call of [register_member],
    [subscribe], [post_message], [add_video] or [add_resource] as before
    it, whether that call succeeds or raises. *)
Theorem is_admin_preserved (db : option store) (e : string) (now : option Z)
  (reg : RegisterRequest.t) (sub : SubscribeRequest.t) (msg : MessageCreate.t)
  (video : VideoCreate.t) (resource : ResourceCreate.t) (x_admin_email : option string) :
  fst (is_admin e (snd (register_member now reg db))) = fst (is_admin e db) /\
  fst (is_admin e (snd (subscribe now sub db))) = fst (is_admin e db) /\
  fst (is_admin e (snd (post_message now msg db))) = fst (is_admin e db) /\
  fst (is_admin e (snd (add_video now video x_admin_email db))) = fst (is_admin e db) /\
  fst (is_admin e (snd (add_resource now resource x_admin_email db)))
  = fst (is_admin e db).
Proof.
  rewrite !is_admin_view. cbn [fst]. repeat split; f_equal.
  - destruct (register_member_members now reg db) as [H|(_ & d' & Hf & H)].
    + by rewrite (auth_view_members _ _ H).
    + unfold auth_view at 1. rewrite H, fmap_app. simpl.
      destruct Hf as (_ & -> & -> & _). apply admin_of_snoc_member.
  - destruct (subscribe_members now sub db) as [H|(f & u & Hk & Hr & H)].
    + by rewrite (auth_view_members _ _ H).
    + unfold auth_view at 1. by rewrite H, auth_view_update_first.
  - by rewrite (auth_view_members _ _ (post_message_members now msg db)).
  - by rewrite (auth_view_members _ _ (add_video_members now video x_admin_email db)).
  - by rewrite (auth_view_members _ _ (add_resource_members now resource x_admin_email db)).
Qed.

(** ** Handlers that only read *)

(** X5: the reading handlers never write.  Whatever their arguments and
    whether they succeed or raise, [admin_check], [list_members],
    [get_videos], [get_resources], [list_messages], [read_root] and
    [test_database] leave the store exactly as it was. *)
Theorem readers_leave_store (db : option store) (email channel : string) (limit : nat)
  (x_admin_email database_url : option string) (name : string)
  (names : string + list string) :
  snd (admin_check email db) = db /\
  snd (list_members x_admin_email db) = db /\
  snd (get_videos db) = db /\
  snd (get_resources db) = db /\
  snd (list_messages channel limit db) = db /\
  snd (read_root db) = db /\
  snd (test_database database_url name names db) = db.
Proof.
  repeat split.
  - unfold admin_check, bind. by rewrite is_admin_run.
  - unfold list_members, bind. destruct (not_admin_run x_admin_email db) as [[|] ->]; [done|].
    by destruct db.
  - by destruct db.
  - by destruct db.
  - by destruct db.
  - by destruct db, names.
Qed.

(** ** Listings *)

Lemma get_documents_all c st :
  get_documents c None None (Some st) = (Ok (coll st c), Some st).
Proof.
  unfold get_documents. cbn [default]. f_equal. f_equal.
  induction (coll st c) as [|d l IH]; [done|].
  rewrite filter_cons, decide_True by apply matches_empty. by rewrite IH.
Qed.

(** X6: for an admin caller [list_members] returns every Member document,
    in store order, each with its identifier rendered as a string, and
    leaves the store unchanged. *)
Theorem list_members_admin (db : option store) (x_admin_email : option string) :
  admin_caller db x_admin_email ->
  list_members x_admin_email db = (Ok (stringify <$> members db), db).
Proof.
  intros Ha. unfold list_members, bind. rewrite (not_admin_admin _ _ Ha).
  destruct Ha as (e & d & _ & _ & Hd & _).
  destruct (resolves_store _ _ _ Hd) as [st ->]. by rewrite get_documents_all.
Qed.

Lemma list_members_admin_witness :
  list_members (Some "root@x.com") demo
  = (Ok (stringify <$> [root_doc; ann_doc; bob_doc]), demo).
Proof. apply (list_members_admin demo (Some "root@x.com")). exact root_is_admin. Defined.

(** ** The catalog *)

Lemma get_videos_run st : get_videos (Some st) = (Ok (listing (Some st) "video"), Some st).
Proof. unfold get_videos, bind. by rewrite get_documents_all. Qed.

Lemma get_resources_run st :
  get_resources (Some st) = (Ok (listing (Some st) "resource"), Some st).
Proof. unfold get_resources, bind. by rewrite get_documents_all. Qed.

Lemma listing_inserted st st' c d' :
  inserted st st' c d' ->
  listing (Some st') c = (listing (Some st) c ++ [stringify d'])%list.
Proof. intros (H & _). simpl. by rewrite H, fmap_app. Qed.

(** X7: an admin's [add_video] stores the payload as it is, under a fresh
    identifier, and touches no other collection; the public [get_videos]
    then returns the former videos followed by the new one, whose [_id] is
    the identifier that [add_video] returned. *)
Theorem add_video_listed (db : option store) (now : option Z) (payload : VideoCreate.t)
  (x_admin_email : option string) :
  admin_caller db x_admin_email ->
  exists st st' d',
    db = Some st /\
    add_video now payload x_admin_email db
    = (Ok (<["id" := VStr (_id (stringify d'))]> (<["message" := VStr "Video added"]> ∅)),
       Some st') /\
    inserted st st' "video" d' /\
    created_at d' = now /\
    body d' = VideoCreate.model_dump payload /\
    get_videos (Some st')
    = (Ok (listing db "video" ++ [stringify d'])%list, Some st').
Proof.
  intros Ha. pose proof (not_admin_admin _ _ Ha) as Hg.
  destruct Ha as (e & d & _ & _ & Hd & _).
  destruct (resolves_store _ _ _ Hd) as [st ->].
  pose proof (store_insert_inserted now "video" (VideoCreate.model_dump payload) st) as Hi.
  exists st, (store_insert now "video" (VideoCreate.model_dump payload) st),
    (Document (next_oid st) now (VideoCreate.model_dump payload)).
  split; [done|].
  split; [unfold add_video, bind; rewrite Hg; reflexivity|].
  split; [exact Hi|]. split; [done|]. split; [done|].
  by rewrite get_videos_run, (listing_inserted _ _ _ _ Hi).
Qed.

Lemma add_video_listed_witness :
  exists st' d',
    snd (add_video None (VideoCreate.Build "Intro" "76979871" None (Some "basics"))
           (Some "root@x.com") demo) = Some st' /\
    get_videos (Some st') = (Ok [stringify d'], Some st') /\
    body d' !! "vimeo_id" = Some (VStr "76979871").
Proof.
  destruct (add_video_listed demo None
              (VideoCreate.Build "Intro" "76979871" None (Some "basics"))
              (Some "root@x.com") root_is_admin)
    as (st & st' & d' & _ & Hrun & _ & _ & Hb & Hget).
  exists st', d'. rewrite Hrun. split; [reflexivity|]. split; [exact Hget|].
  rewrite Hb. reflexivity.
Defined.

(** X8: an admin's [add_resource] stores the payload as it is (a request
    whose [tags] is null is stored with null tags), under a fresh
    identifier, and touches no other collection; the public [get_resources]
    then returns the former resources followed by the new one. *)
Theorem add_resource_listed (db : option store) (now : option Z)
  (payload : ResourceCreate.t) (x_admin_email : option string) :
  admin_caller db x_admin_email ->
  exists st st' d',
    db = Some st /\
    add_resource now payload x_admin_email db
    = (Ok (<["id" := VStr (_id (stringify d'))]>
             (<["message" := VStr "Resource added"]> ∅)),
       Some st') /\
    inserted st st' "resource" d' /\
    created_at d' = now /\
    body d' = ResourceCreate.model_dump payload /\
    (ResourceCreate.tags payload = None -> body d' !! "tags" = Some VNone) /\
    get_resources (Some st')
    = (Ok (listing db "resource" ++ [stringify d'])%list, Some st').
Proof.
  intros Ha. pose proof (not_admin_admin _ _ Ha) as Hg.
  destruct Ha as (e & d & _ & _ & Hd & _).
  destruct (resolves_store _ _ _ Hd) as [st ->].
  pose proof (store_insert_inserted now "resource"
                (ResourceCreate.model_dump payload) st) as Hi.
  exists st, (store_insert now "resource" (ResourceCreate.model_dump payload) st),
    (Document (next_oid st) now (ResourceCreate.model_dump payload)).
  split; [done|].
  split; [unfold add_resource, bind; rewrite Hg; reflexivity|].
  split; [exact Hi|]. split; [done|]. split; [done|]. split.
  - intros Ht. cbn [body]. unfold ResourceCreate.model_dump. rewrite Ht.
    by simplify_map_eq.
  - by rewrite get_resources_run, (listing_inserted _ _ _ _ Hi).
Qed.

Lemma add_resource_listed_witness :
  exists st' d',
    snd (add_resource None (ResourceCreate.Build "Pitch" "prompt" None None None)
           (Some "root@x.com") demo) = Some st' /\
    get_resources (Some st') = (Ok [stringify d'], Some st') /\
    body d' !! "tags" = Some VNone.
Proof.
  destruct (add_resource_listed demo None
              (ResourceCreate.Build "Pitch" "prompt" None None None)
              (Some "root@x.com") root_is_admin)
    as (st & st' & d' & _ & Hrun & _ & _ & _ & Ht & Hget).
  exists st', d'. rewrite Hrun. split; [reflexivity|]. split; [exact Hget|].
  apply Ht. reflexivity.
Defined.

(** ** After a registration *)

Lemma register_member_fresh_run now payload st :
  no_member (Some st) (RegisterRequest.email payload) ->
  register_member now payload (Some st)
  = (Ok (<["id" := VStr (str_oid (next_oid st))]> (<["message" := VStr "Registered"]> ∅)),
     Some (store_insert now "member"
             (Schemas.Member.model_dump
                (Schemas.Member.new (RegisterRequest.name payload)
                   (RegisterRequest.email payload))) st)).
Proof.
  intros Hn. unfold register_member, bind. by rewrite (member_by_email_None _ _ Hn).
Qed.

Lemma resolves_at_snoc st st' e d' :
  no_member (Some st) e -> members (Some st') = (members (Some st) ++ [d'])%list ->
  has_email e d' -> resolves_at (Some st') e (members (Some st)) d' [].
Proof. intros Hn Hm Hd. by split. Qed.

Lemma post_message_forbidden_run now payload db d :
  resolves db (MessageCreate.member_email payload) d -> ~ may_post d ->
  post_message now payload db = (Raise (Forbidden "Subscription required"), db).
Proof.
  intros Hd Hs. unfold post_message, bind. rewrite (ensure_member_Some _ _ _ Hd).
  rewrite bool_decide_eq_false_2; [done|]. by rewrite <- may_post_elem.
Qed.

Lemma is_admin_resolves db e d :
  resolves db e d -> is_admin e db = (Ok (bool_decide (has_role "admin" d)), db).
Proof.
  intros Hd%member_by_email_Some. unfold is_admin, bind. by rewrite Hd.
Qed.

(** X9: after a successful registration the new email resolves to the
    document just inserted; that member is not an admin, and may not post:
    [post_message] in its name fails with Forbidden "Subscription required",
    whatever the content and channel. *)
Theorem register_then_lookup (st : store) (now : option Z) (payload : RegisterRequest.t) :
  no_member (Some st) (RegisterRequest.email payload) ->
  exists d',
    let db' := snd (register_member now payload (Some st)) in
    member_by_email (RegisterRequest.email payload) db' = (Ok (Some d'), db') /\
    fresh_member (RegisterRequest.name payload) (RegisterRequest.email payload) d' /\
    _id d' = next_oid st /\
    is_admin (RegisterRequest.email payload) db' = (Ok false, db') /\
    forall now' content channel,
      post_message now'
        (MessageCreate.Build (RegisterRequest.email payload) content channel) db'
      = (Raise (Forbidden "Subscription required"), db').
Proof.
  intros Hn. rewrite (register_member_fresh_run _ _ _ Hn). cbn [snd].
  set (doc := Schemas.Member.model_dump _).
  set (st' := store_insert now "member" doc st).
  assert (fresh_member (RegisterRequest.name payload) (RegisterRequest.email payload)
            (Document (next_oid st) now doc)) as Hf.
  { subst doc. repeat split; by simplify_map_eq. }
  assert (resolves (Some st') (RegisterRequest.email payload)
            (Document (next_oid st) now doc)) as Hd.
  { exists (members (Some st)), []. apply (resolves_at_snoc st); [done| |apply Hf].
    subst st'. by rewrite members_store_insert. }
  exists (Document (next_oid st) now doc). cbv zeta.
  split; [by apply member_by_email_Some|]. split; [done|]. split; [done|]. split.
  - rewrite (is_admin_resolves _ _ _ Hd).
    rewrite bool_decide_eq_false_2; [done|].
    destruct Hf as (_ & _ & Hr & _). unfold has_role. cbn [body] in *. rewrite Hr.
    discriminate.
  - intros now' content channel.
    apply (post_message_forbidden_run _ _ _ (Document (next_oid st) now doc)); [done|].
    intros (s & Hs & Hin). destruct Hf as (_ & _ & _ & Hst & _).
    cbn [body] in *. rewrite Hst in Hs. injection Hs as <-.
    rewrite !elem_of_cons, elem_of_nil in Hin.
    destruct Hin as [|[|[|[]]]]; discriminate.
Qed.

Lemma register_then_lookup_witness :
  is_admin "cy@x.com" (snd (register_member None (RegisterRequest.Build "Cy" "cy@x.com") demo))
  = (Ok false, snd (register_member None (RegisterRequest.Build "Cy" "cy@x.com") demo)).
Proof.
  destruct (register_then_lookup demo_store None (RegisterRequest.Build "Cy" "cy@x.com"))
    as (d' & _ & _ & _ & H & _).
  - apply no_member_compute. reflexivity.
  - exact H.
Defined.

(** ** After an update of a member *)

Lemma resolves_at_update st e u pre d post :
  keeps_email u -> resolves_at (Some st) e pre d post ->
  resolves_at (Some (store_update_one "member" {["email" := VStr e]} u st)) e
    pre (set_fields u d) post.
Proof.
  intros Hu Hat. pose proof (store_update_one_member st e u pre d post Hat) as (Hm & _).
  destruct Hat as (_ & Hd & Hpre). split; [exact Hm|]. split; [|done].
  unfold has_email. rewrite lookup_set_fields. by rewrite Hu.
Qed.

Lemma not_admin_caller db e : is_admin e db = (Ok false, db) -> ~ admin_caller db (Some e).
Proof.
  intros H (e' & d & [= <-] & _ & Hd & Hr).
  rewrite (is_admin_resolves _ _ _ Hd), bool_decide_eq_true_2 in H by done.
  discriminate.
Qed.

Lemma update_member_role_run db x email r subscription_status d :
  admin_caller db x -> resolves db email d -> r <> "" ->
  exists st u,
    db = Some st /\ keeps_email u /\ u !! "role" = Some (VStr r) /\
    update_member email (Some r) subscription_status x db
    = (Ok (<["message" := VStr "Updated"]> ∅),
       Some (store_update_one "member" {["email" := VStr email]} u st)).
Proof.
  intros Ha Hd Hr. destruct (resolves_store _ _ _ Hd) as [st ->].
  rewrite (update_member_admin _ _ _ _ _ d Ha Hd). cbv zeta.
  assert (nonempty (Some r) = Some r) as -> by (by destruct r).
  exists st. destruct (nonempty subscription_status) as [s|].
  - exists (<["subscription_status" := VStr s]> (<["role" := VStr r]> ∅)).
    split; [done|]. split; [unfold keeps_email; by simplify_map_eq|].
    split; [by simplify_map_eq|].
    rewrite bool_decide_eq_false_2 by apply insert_non_empty. reflexivity.
  - exists (<["role" := VStr r]> ∅).
    split; [done|]. split; [unfold keeps_email; by simplify_map_eq|].
    split; [by simplify_map_eq|].
    rewrite bool_decide_eq_false_2 by apply insert_non_empty. reflexivity.
Qed.

Lemma update_role_is_admin db x email r subscription_status d :
  admin_caller db x -> resolves db email d -> r <> "" ->
  is_admin email (snd (update_member email (Some r) subscription_status x db))
  = (Ok (bool_decide (r = "admin")),
     snd (update_member email (Some r) subscription_status x db)).
Proof.
  intros Ha Hd Hr.
  destruct (update_member_role_run _ _ _ _ subscription_status _ Ha Hd Hr)
    as (st & u & -> & Hu & Hur & ->). cbn [snd].
  destruct Hd as (pre & post & Hat).
  pose proof (resolves_at_update _ _ _ _ _ _ Hu Hat) as Hat'.
  rewrite (is_admin_resolves _ _ (set_fields u d)) by (by exists pre, post).
  f_equal. f_equal. apply bool_decide_ext. unfold has_role.
  rewrite lookup_set_fields, Hur. split; [by intros [= ->]|by intros ->].
Qed.

(** X10: role changes take effect at once.  After an admin sets a non-empty
    role on an existing member, [is_admin] of that member's email is true
    if the new role is "admin" and false otherwise. *)
Theorem update_role_then_is_admin (db : option store) (email r : string)
  (subscription_status x_admin_email : option string) (d : document N) :
  admin_caller db x_admin_email -> resolves db email d -> r <> "" ->
  exists db',
    update_member email (Some r) subscription_status x_admin_email db
    = (Ok (<["message" := VStr "Updated"]> ∅), db') /\
    is_admin email db' = (Ok (bool_decide (r = "admin")), db').
Proof.
  intros Ha Hd Hr.
  pose proof (update_role_is_admin _ _ _ _ subscription_status _ Ha Hd Hr) as H.
  destruct (update_member_role_run _ _ _ _ subscription_status _ Ha Hd Hr)
    as (st & u & _ & _ & _ & Hrun).
  rewrite Hrun in *. eexists. split; [reflexivity|]. exact H.
Qed.

Lemma update_role_then_is_admin_witness :
  exists db',
    update_member "ann@x.com" (Some "admin") None (Some "root@x.com") demo
    = (Ok (<["message" := VStr "Updated"]> ∅), db') /\
    is_admin "ann@x.com" db' = (Ok true, db').
Proof.
  apply (update_role_then_is_admin demo "ann@x.com" "admin" None (Some "root@x.com")
           ann_doc).
  - exact root_is_admin.
  - exact ann_resolves.
  - discriminate.
Defined.

(** X11: an admin can demote themselves, and is then locked out.  When an
    admin sets their own role to a non-empty value other than "admin", the
    update succeeds, and afterwards every admin-gated handler called with
    the same header fails with Forbidden, so the same caller cannot undo
    it. *)
Theorem self_demotion_locks_out (db : option store) (a r : string)
  (subscription_status : option string) :
  admin_caller db (Some a) -> r <> "" -> r <> "admin" ->
  exists db',
    update_member a (Some r) subscription_status (Some a) db
    = (Ok (<["message" := VStr "Updated"]> ∅), db') /\
    list_members (Some a) db' = (Raise (Forbidden "Admin only"), db') /\
    (forall email role status,
       update_member email role status (Some a) db'
       = (Raise (Forbidden "Admin only"), db')) /\
    (forall now video,
       add_video now video (Some a) db' = (Raise (Forbidden "Admin only"), db')) /\
    (forall now resource,
       add_resource now resource (Some a) db' = (Raise (Forbidden "Admin only"), db')).
Proof.
  intros Ha Hr Hna.
  assert (exists d, resolves db a d) as [d Hd].
  { destruct Ha as (e & d & [= <-] & _ & Hd & _). eauto. }
  pose proof (update_role_is_admin _ _ _ _ subscription_status _ Ha Hd Hr) as H.
  destruct (update_member_role_run _ _ _ _ subscription_status _ Ha Hd Hr)
    as (st & u & _ & _ & _ & Hrun).
  rewrite Hrun in *. cbn [snd] in H. eexists. split; [reflexivity|].
  rewrite bool_decide_eq_false_2 in H by done.
  apply not_admin_caller, not_admin_denied in H.
  repeat split; intros;
    unfold list_members, update_member, add_video, add_resource, bind;
    by rewrite H.
Qed.

Lemma self_demotion_locks_out_witness :
  exists db',
    update_member "root@x.com" (Some "member") None (Some "root@x.com") demo
    = (Ok (<["message" := VStr "Updated"]> ∅), db') /\
    list_members (Some "root@x.com") db' = (Raise (Forbidden "Admin only"), db').
Proof.
  destruct (self_demotion_locks_out demo "root@x.com" "member" None root_is_admin)
    as (db' & H1 & H2 & _); [discriminate|discriminate|].
  exists db'. exact (conj H1 H2).
Defined.

(** ** After a subscription *)

Lemma list_members_run_admin db x :
  admin_caller db x -> list_members x db = (Ok (stringify <$> members db), db).
Proof.
  intros Ha. unfold list_members, bind. rewrite (not_admin_admin _ _ Ha).
  destruct Ha as (e & d & _ & _ & Hd & _).
  destruct (resolves_store _ _ _ Hd) as [st ->]. by rewrite get_documents_all.
Qed.

Lemma resolves_at_insert_other now c data st e pre d post :
  c <> "member" -> resolves_at (Some st) e pre d post ->
  resolves_at (Some (store_insert now c data st)) e pre d post.
Proof.
  intros Hc (Hm & H). split; [|done].
  by rewrite members_store_insert, decide_False.
Qed.

Lemma subscribe_valid_run db now payload pre d post :
  resolves_at db (SubscribeRequest.email payload) pre d post ->
  lower (SubscribeRequest.provider payload) ∈ ["stripe"; "paypal"; "invoice"] ->
  exists st' status url,
    subscribe now payload db = (Ok (subscription_response status url), Some st') /\
    status ∈ ["active"; "pending"] /\
    resolves_at (Some st') (SubscribeRequest.email payload) pre
      (set_fields (<["subscription_status" := VStr status]>
                     (<["provider" := VStr (lower (SubscribeRequest.provider payload))]> ∅))
         d) post.
Proof.
  intros Hat Hp.
  assert (resolves db (SubscribeRequest.email payload) d) as Hd by (by exists pre, post).
  destruct (resolves_store _ _ _ Hd) as [st ->].
  rewrite !elem_of_cons, elem_of_nil in Hp. destruct Hp as [Hp|[Hp|[Hp|[]]]].
  - rewrite (subscribe_checkout _ _ _ d "stripe" "https://buy.stripe.com/test_12345")
      by auto.
    eexists _, "active", _. split; [reflexivity|]. split; [apply list_elem_of_here|].
    rewrite Hp. by apply resolves_at_update.
  - rewrite (subscribe_checkout _ _ _ d "paypal"
               "https://www.paypal.com/checkoutnow?token=TEST123") by auto.
    eexists _, "active", _. split; [reflexivity|]. split; [apply list_elem_of_here|].
    rewrite Hp. by apply resolves_at_update.
  - rewrite (subscribe_invoice _ _ _ d) by done.
    eexists _, "pending", _. split; [reflexivity|].
    split; [apply list_elem_of_further, list_elem_of_here|].
    rewrite Hp. apply resolves_at_update; [done|].
    by apply resolves_at_insert_other.
Qed.

Lemma nocase_provider p :
  nocase_eq p "stripe" = true \/ nocase_eq p "paypal" = true \/
  nocase_eq p "invoice" = true ->
  lower p ∈ ["stripe"; "paypal"; "invoice"].
Proof.
  rewrite !elem_of_cons.
  intros [H|[H|H]]; apply lower_nocase in H; auto.
Qed.

Lemma post_message_ok_run now payload db d :
  resolves db (MessageCreate.member_email payload) d -> may_post d ->
  exists st,
    db = Some st /\
    post_message now payload db
    = (Ok (<["id" := VStr (str_oid (next_oid st))]> (<["message" := VStr "Posted"]> ∅)),
       Some (store_insert now "message" (MessageCreate.model_dump payload) st)).
Proof.
  intros Hd Hs. destruct (resolves_store _ _ _ Hd) as [st ->]. exists st.
  split; [done|]. unfold post_message, bind. rewrite (ensure_member_Some _ _ _ Hd).
  by rewrite bool_decide_eq_true_2 by (by apply may_post_elem).
Qed.

(** X12: a subscription opens the community.  After [subscribe] succeeds
    for a member with any of the three providers (so also for an invoice
    that is only pending), [post_message] in that member's name succeeds,
    whatever the content and channel. *)
Theorem subscribe_then_post (db : option store) (now : option Z)
  (payload : SubscribeRequest.t) (d : document N) :
  resolves db (SubscribeRequest.email payload) d ->
  nocase_eq (SubscribeRequest.provider payload) "stripe" = true \/
  nocase_eq (SubscribeRequest.provider payload) "paypal" = true \/
  nocase_eq (SubscribeRequest.provider payload) "invoice" = true ->
  exists r db',
    subscribe now payload db = (Ok r, db') /\
    forall now' content channel,
      succeeded
        (fst (post_message now'
                (MessageCreate.Build (SubscribeRequest.email payload) content channel)
                db')) = true.
Proof.
  intros (pre & post & Hat) Hp%nocase_provider.
  destruct (subscribe_valid_run _ now _ _ _ _ Hat Hp) as (st' & status & url & -> & Hs & Hat').
  eexists _, _. split; [reflexivity|]. intros now' content channel.
  edestruct (post_message_ok_run now'
               (MessageCreate.Build (SubscribeRequest.email payload) content channel))
    as (st & _ & ->); [by eexists pre, post| |done].
  exists status. split; [|rewrite !elem_of_cons in *; tauto].
  rewrite lookup_set_fields. by simplify_map_eq.
Qed.

Lemma subscribe_then_post_witness :
  succeeded
    (fst (post_message None (MessageCreate.Build "ann@x.com" "hello" "general")
            (snd (subscribe None
                    (SubscribeRequest.Build "ann@x.com" "Invoice" None None) demo))))
  = true.
Proof.
  destruct (subscribe_then_post demo None
              (SubscribeRequest.Build "ann@x.com" "Invoice" None None) ann_doc
              ann_resolves) as (r & db' & Hrun & Hpost).
  - right. right. reflexivity.
  - rewrite Hrun. apply Hpost.
Defined.

(** X13: register, subscribe, list.  After a fresh email is registered and
    then subscribed with provider paypal (in any case), an admin's
    [list_members] returns the former members followed by the new one, which
    shows subscription_status "active" and provider "paypal", the registered
    name, role "member" and plan "$49/mo". *)
Theorem register_subscribe_list (st : store) (now now' : option Z)
  (reg : RegisterRequest.t) (provider : string) (company notes x_admin_email : option string) :
  no_member (Some st) (RegisterRequest.email reg) ->
  nocase_eq provider "paypal" = true ->
  admin_caller (Some st) x_admin_email ->
  exists db2 d',
    subscribe now'
      (SubscribeRequest.Build (RegisterRequest.email reg) provider company notes)
      (snd (register_member now reg (Some st)))
    = (Ok (subscription_response "active"
             (VStr "https://www.paypal.com/checkoutnow?token=TEST123")), db2) /\
    list_members x_admin_email db2
    = (Ok (stringify <$> (members (Some st) ++ [d'])%list), db2) /\
    _id d' = next_oid st /\
    body d' !! "name" = Some (VStr (RegisterRequest.name reg)) /\
    body d' !! "email" = Some (VStr (RegisterRequest.email reg)) /\
    body d' !! "role" = Some (VStr "member") /\
    body d' !! "subscription_status" = Some (VStr "active") /\
    body d' !! "provider" = Some (VStr "paypal") /\
    body d' !! "plan" = Some (VStr "$49/mo").
Proof.
  intros Hn Hp%lower_nocase Ha; [|done].
  rewrite (register_member_fresh_run _ _ _ Hn). cbn [snd].
  set (doc := Schemas.Member.model_dump _).
  set (st1 := store_insert now "member" doc st).
  set (d0 := Document (next_oid st) now doc).
  assert (members (Some st1) = (members (Some st) ++ [d0])%list) as Hm1.
  { subst st1. by rewrite members_store_insert. }
  assert (resolves_at (Some st1) (RegisterRequest.email reg) (members (Some st)) d0 [])
    as Hat.
  { apply (resolves_at_snoc st); [done|done|]. subst d0 doc.
    unfold has_email. by simplify_map_eq. }
  set (sub := SubscribeRequest.Build (RegisterRequest.email reg) provider company notes).
  rewrite (subscribe_checkout (Some st1) now' sub d0 "paypal"
             "https://www.paypal.com/checkoutnow?token=TEST123");
    [|by eexists _, _|done|auto].
  cbn [fmap option_fmap option_map].
  set (u := <["subscription_status" := VStr "active"]> (<["provider" := VStr "paypal"]> ∅)).
  pose proof (resolves_at_update st1 _ u _ _ _ ltac:(done) Hat) as (Hm2 & _).
  set (st2 := store_update_one "member" _ u st1) in *.
  exists (Some st2), (set_fields u d0). split; [done|]. split.
  - rewrite <- Hm2. apply list_members_run_admin.
    destruct Ha as (a & da & -> & Hne & (pre & post & Hl & Hda & Hpre) & Hr).
    exists a, da. repeat (split; [done|]). split; [|done].
    exists pre, (post ++ [set_fields u d0])%list. split; [|done].
    rewrite Hm2, Hl. by rewrite <- app_assoc.
  - split; [done|]. subst u d0 doc. rewrite !lookup_set_fields.
    repeat split; by simplify_map_eq.
Qed.

Lemma register_subscribe_list_witness :
  exists db2 d',
    list_members (Some "root@x.com") db2
    = (Ok (stringify <$> [root_doc; ann_doc; bob_doc; d']), db2) /\
    body d' !! "provider" = Some (VStr "paypal").
Proof.
  destruct (register_subscribe_list demo_store None None
              (RegisterRequest.Build "Cy" "cy@x.com") "PayPal" None None
              (Some "root@x.com"))
    as (db2 & d' & _ & Hl & _ & _ & _ & _ & _ & Hp & _).
  - apply no_member_compute. reflexivity.
  - reflexivity.
  - exact root_is_admin.
  - exists db2, d'. split; [exact Hl|exact Hp].
Defined.

(** ** Posting and listing *)

Lemma channel_messages_insert now payload st :
  channel_messages (store_insert now "message" (MessageCreate.model_dump payload) st)
    (MessageCreate.channel payload)
  = (channel_messages st (MessageCreate.channel payload)
     ++ [Document (next_oid st) now (MessageCreate.model_dump payload)])%list.
Proof.
  unfold channel_messages, store_insert. rewrite coll_insert_eq, filter_app. f_equal.
  rewrite filter_cons, decide_True; [done|].
  unfold MessageCreate.model_dump. cbn [body]. by simplify_map_eq.
Qed.

Lemma elem_of_sort_reverse {A} (key : A -> Z) (x : A) l :
  x ∈ sort_reverse key l <-> x ∈ l.
Proof. by rewrite (sort_reverse_perm key l). Qed.

(** X14: whether a new post shows in the listing depends on how full the
    channel is.  After a successful [post_message], listing the channel
    with a limit above the number of messages the channel held before
    returns the new message; with a limit up to that number the listing is
    exactly what it was before the post, so the new message is left out. *)
Theorem post_then_list (db : option store) (now : option Z) (payload : MessageCreate.t)
  (d : document N) (limit : nat) :
  resolves db (MessageCreate.member_email payload) d -> may_post d ->
  exists st st' m,
    db = Some st /\
    snd (post_message now payload db) = Some st' /\
    inserted st st' "message" m /\
    message_of payload m /\
    (length (channel_messages st (MessageCreate.channel payload)) < limit ->
     exists msgs,
       list_messages (MessageCreate.channel payload) limit (Some st')
       = (Ok msgs, Some st') /\ stringify m ∈ msgs) /\
    (limit <= length (channel_messages st (MessageCreate.channel payload)) ->
     fst (list_messages (MessageCreate.channel payload) limit (Some st'))
     = fst (list_messages (MessageCreate.channel payload) limit (Some st))).
Proof.
  intros Hd Hs. destruct (post_message_ok_run now payload db d Hd Hs) as (st & -> & Hrun).
  rewrite Hrun. cbn [snd].
  exists st, (store_insert now "message" (MessageCreate.model_dump payload) st),
    (Document (next_oid st) now (MessageCreate.model_dump payload)).
  split; [done|]. split; [done|]. split; [apply store_insert_inserted|]. split.
  { unfold message_of, MessageCreate.model_dump. cbn [body].
    repeat split; by simplify_map_eq. }
  rewrite !list_messages_run, channel_messages_insert. cbn [fst]. split.
  - intros Hlt. eexists. split; [reflexivity|].
    apply elem_of_sort_reverse, list_elem_of_fmap_2.
    rewrite take_ge by (rewrite length_app; simpl; lia).
    apply elem_of_app. right. apply list_elem_of_here.
  - intros Hle. by rewrite take_app_le.
Qed.

Lemma post_then_list_witness :
  fst (list_messages "x" 3
         (snd (post_message (Some 40%Z) (MessageCreate.Build "bob@x.com" "four" "x") demo)))
  = fst (list_messages "x" 3 demo).
Proof.
  destruct (post_then_list demo (Some 40%Z) (MessageCreate.Build "bob@x.com" "four" "x")
              bob_doc 3 bob_resolves) as (st & st' & m & Hst & Hrun & _ & _ & _ & Hsame).
  - exists "active". split; [reflexivity|]. apply list_elem_of_here.
  - injection Hst as <-. rewrite Hrun. apply Hsame. vm_compute. lia.
Defined.

Lemma insert_desc_fmap {A B} (f : A -> B) (key : B -> Z) x l :
  insert_desc key (f x) (f <$> l) = f <$> insert_desc (fun a => key (f a)) x l.
Proof.
  induction l as [|y l IH]; [done|]. rewrite fmap_cons. cbn [insert_desc].
  destruct (key (f x) <? key (f y))%Z; [|done]. by rewrite fmap_cons, IH.
Qed.

Lemma sort_reverse_fmap {A B} (f : A -> B) (key : B -> Z) l :
  sort_reverse key (f <$> l) = f <$> sort_reverse (fun a => key (f a)) l.
Proof.
  induction l as [|x l IH]; [done|]. rewrite fmap_cons. unfold sort_reverse in *.
  cbn [foldr]. by rewrite IH, insert_desc_fmap.
Qed.

Lemma sort_reverse_sorted_id {A} (key : A -> Z) l :
  Sorted (ge_key key) l -> sort_reverse key l = l.
Proof.
  induction 1 as [|x l Hl IH Hx]; [done|].
  unfold sort_reverse in *. cbn [foldr]. rewrite IH.
  destruct Hx as [|y l Hy]; [done|]. cbn [insert_desc].
  unfold ge_key in Hy. by rewrite (proj2 (Z.ltb_ge _ _) Hy).
Qed.

Lemma Sorted_take {A} (R : A -> A -> Prop) n l : Sorted R l -> Sorted R (take n l).
Proof.
  intros H. revert n. induction H as [|x l Hl IH Hx]; intros [|n]; simpl;
    try constructor; [apply IH|].
  destruct Hx as [|y l Hy]; [by destruct n|]. destruct n; by constructor.
Qed.

(** X15: when the messages of a channel stand newest-first in the store
    (as they do when none of them has a creation time), [list_messages]
    returns the first [limit] of them in store order. *)
Theorem list_messages_store_order (st : store) (channel : string) (limit : nat) :
  Sorted (ge_key sort_key) (channel_messages st channel) ->
  list_messages channel limit (Some st)
  = (Ok (stringify <$> take limit (channel_messages st channel)), Some st).
Proof.
  intros H. rewrite list_messages_run, sort_reverse_fmap. repeat f_equal.
  apply (sort_reverse_sorted_id (fun a => sort_key (stringify a))).
  by apply Sorted_take.
Qed.

Lemma list_messages_store_order_witness :
  list_messages "x" 2 (Some sorted_store)
  = (Ok (stringify <$> [message_doc 0 (Some 30%Z) "bob@x.com" "three" "x";
                        message_doc 1 (Some 20%Z) "bob@x.com" "two" "x"]),
     Some sorted_store).
Proof.
  rewrite (list_messages_store_order sorted_store "x" 2); [reflexivity|].
  vm_compute. repeat constructor; discriminate.
Defined.

(** ** Registering twice *)

(** X16: once an email is registered it cannot be registered again.  After
    a successful registration, every further registration with the same
    email, under any name, fails with Conflict and writes nothing. *)
Theorem register_twice_conflict (st : store) (now : option Z) (payload : RegisterRequest.t) :
  no_member (Some st) (RegisterRequest.email payload) ->
  exists r db',
    register_member now payload (Some st) = (Ok r, db') /\
    forall now' name',
      register_member now' (RegisterRequest.Build name' (RegisterRequest.email payload)) db'
      = (Raise Conflict, db').
Proof.
  intros Hn. rewrite (register_member_fresh_run _ _ _ Hn).
  eexists _, _. split; [reflexivity|]. intros now' name'.
  unfold register_member, bind. cbn [RegisterRequest.email].
  erewrite member_by_email_Some; [done|].
  eexists _, []. apply (resolves_at_snoc st); [done| |].
  - by rewrite members_store_insert.
  - unfold has_email. cbn [body]. by simplify_map_eq.
Qed.

Lemma register_twice_conflict_witness :
  register_member None (RegisterRequest.Build "Cy again" "cy@x.com")
    (snd (register_member None (RegisterRequest.Build "Cy" "cy@x.com") demo))
  = (Raise Conflict,
     snd (register_member None (RegisterRequest.Build "Cy" "cy@x.com") demo)).
Proof.
  destruct (register_twice_conflict demo_store None (RegisterRequest.Build "Cy" "cy@x.com"))
    as (r & db' & Hrun & H).
  - apply no_member_compute. reflexivity.
  - change demo with (Some demo_store). rewrite Hrun. apply H.
Defined.

(** ** Updating twice *)

Lemma set_fields_idem u d : set_fields u (set_fields u d) = set_fields u d.
Proof.
  unfold set_fields. cbn [_id created_at body]. f_equal.
  by rewrite (assoc_L (∪)), (idemp_L (∪)).
Qed.

(** X17: the member update is idempotent.  When an admin's update succeeds
    and the caller is still an admin afterwards, repeating the same call
    succeeds again and leaves the store as the first call left it. *)
Theorem update_member_idempotent (db : option store) (email : string)
  (role subscription_status x_admin_email : option string) (r : gmap string value)
  (db' : option store) :
  admin_caller db x_admin_email ->
  update_member email role subscription_status x_admin_email db = (Ok r, db') ->
  admin_caller db' x_admin_email ->
  update_member email role subscription_status x_admin_email db' = (Ok r, db').
Proof.
  intros Ha Hrun Ha'.
  destruct (resolves_or_not db email) as [Hn|[d Hd]].
  { rewrite (update_member_not_found _ _ _ _ _ Ha Hn) in Hrun. discriminate. }
  rewrite (update_member_admin _ _ _ _ _ d Ha Hd) in Hrun. cbv zeta in Hrun.
  set (u := match nonempty subscription_status with
            | Some s => _ | None => _ end) in *.
  case_bool_decide as Hu; [discriminate|]. injection Hrun as <- <-.
  assert (keeps_email u) as Hk.
  { subst u. unfold keeps_email.
    destruct (nonempty role), (nonempty subscription_status); by simplify_map_eq. }
  destruct Hd as (pre & post & Hat).
  assert (exists st, db = Some st) as [st ->].
  { apply (resolves_store _ email d). by exists pre, post. }
  cbn [fmap option_fmap option_map] in *.
  pose proof (resolves_at_update _ _ _ _ _ _ Hk Hat) as Hat'.
  set (st' := store_update_one "member" {["email" := VStr email]} u st) in *.
  rewrite (update_member_admin _ _ _ _ _ (set_fields u d) Ha')
    by (by exists pre, post).
  cbv zeta. fold u. rewrite bool_decide_eq_false_2 by done.
  cbn [fmap option_fmap option_map]. do 2 f_equal.
  pose proof (store_update_one_member st' email u _ _ _ Hat') as (Hm & Hn & Hc).
  rewrite set_fields_idem in Hm. destruct Hat' as (Hm' & _). simpl in Hm'.
  destruct (store_update_one "member" {["email" := VStr email]} u st') as [c n].
  destruct st' as [c' n']. simpl in *. subst n. f_equal.
  apply map_eq. intros k. destruct (decide (k = "member")) as [->|Hk'].
  - unfold coll in *. simpl in *.
    destruct (c !! "member") eqn:E1, (c' !! "member") eqn:E2; simpl in *;
      subst; try done.
    + by destruct pre.
    + by destruct pre.
  - by apply Hc.
Qed.

Lemma not_admin_is_false db e :
  ~ admin_caller db (Some e) -> e <> "" -> is_admin e db = (Ok false, db).
Proof.
  intros H He. rewrite is_admin_run.
  destruct (find_one _ _) as [m|] eqn:E; [|done].
  rewrite bool_decide_eq_false_2; [done|]. intros Hr. destruct H.
  exists e, m. repeat (split; [done|]). split; [|done]. by apply resolves_compute.
Qed.

Lemma update_member_idempotent_witness :
  exists db',
    update_member "ann@x.com" (Some "moderator") None (Some "root@x.com") demo
    = (Ok (<["message" := VStr "Updated"]> ∅), db') /\
    update_member "ann@x.com" (Some "moderator") None (Some "root@x.com") db'
    = (Ok (<["message" := VStr "Updated"]> ∅), db').
Proof.
  destruct (update_member_role_run demo (Some "root@x.com") "ann@x.com" "moderator" None
              ann_doc root_is_admin ann_resolves) as (st & u & _ & _ & _ & Hrun);
    [discriminate|].
  eexists. split; [exact Hrun|].
  apply (update_member_idempotent demo "ann@x.com" (Some "moderator") None
           (Some "root@x.com")); [exact root_is_admin|exact Hrun|].
  assert (is_admin "root@x.com"
            (snd (update_member "ann@x.com" (Some "moderator") None (Some "root@x.com") demo))
          = (Ok true,
             snd (update_member "ann@x.com" (Some "moderator") None (Some "root@x.com")
                    demo))) as Hadm by (vm_compute; reflexivity).
  rewrite Hrun in Hadm. cbn [snd] in Hadm.
  destruct (admin_caller_or_not
              (Some (store_update_one "member" {["email" := VStr "ann@x.com"]} u st))
              (Some "root@x.com")) as [H|H]; [exact H|].
  rewrite (not_admin_is_false _ _ H) in Hadm by discriminate. discriminate Hadm.
Defined.

(** ** The documents written and the schemas *)

(** X18: the documents the handlers write are the dumps of the schemas of
    [schemas.py].  The Member that [register_member] inserts is the schema's
    Member of that name and email with every other field at its default;
    the InvoiceRequest that an invoice subscription inserts is the schema's
    InvoiceRequest with the default status; the Message that [post_message]
    inserts is the schema's Message, whose channel defaults to "general" as
    that of the request does. *)
Theorem written_documents_conform (st : store) (now : option Z)
  (reg : RegisterRequest.t) (sub : SubscribeRequest.t) (msg : MessageCreate.t)
  (d_sub d_msg : document N) :
  no_member (Some st) (RegisterRequest.email reg) ->
  resolves (Some st) (SubscribeRequest.email sub) d_sub ->
  nocase_eq (SubscribeRequest.provider sub) "invoice" = true ->
  resolves (Some st) (MessageCreate.member_email msg) d_msg -> may_post d_msg ->
  (exists st' d',
     snd (register_member now reg (Some st)) = Some st' /\
     inserted st st' "member" d' /\
     body d' = Schemas.Member.model_dump
                 (Schemas.Member.new (RegisterRequest.name reg) (RegisterRequest.email reg))) /\
  (exists st' d',
     snd (subscribe now sub (Some st)) = Some st' /\
     coll st' "invoicerequest" = (coll st "invoicerequest" ++ [d'])%list /\
     body d' = Schemas.InvoiceRequest.model_dump
                 (Schemas.InvoiceRequest.new (SubscribeRequest.email sub)
                    (SubscribeRequest.company sub) (SubscribeRequest.notes sub))) /\
  (exists st' d',
     snd (post_message now msg (Some st)) = Some st' /\
     inserted st st' "message" d' /\
     body d' = Schemas.Message.model_dump
                 (Schemas.Message.Build (MessageCreate.member_email msg)
                    (MessageCreate.content msg) (MessageCreate.channel msg))) /\
  (forall e c ch,
     MessageCreate.model_dump (MessageCreate.parse e c ch)
     = Schemas.Message.model_dump (Schemas.Message.new e c ch)).
Proof.
  intros Hn Hs Hp%lower_nocase Hm Hmay; [|done]. split; [|split; [|split]].
  - rewrite (register_member_fresh_run _ _ _ Hn). cbn [snd].
    eexists _, (Document _ _ _). split; [reflexivity|].
    split; [apply store_insert_inserted|done].
  - rewrite (subscribe_invoice _ _ _ _ Hs Hp). cbn [snd fmap option_fmap option_map].
    set (data := <["member_email" := _]> _).
    destruct Hs as (pre & post & Hat).
    pose proof (resolves_at_insert_other now "invoicerequest" data st _ _ _ _
                  ltac:(done) Hat) as Hat1.
    pose proof (store_update_one_member _ _
                  (<["subscription_status" := VStr "pending"]>
                     (<["provider" := VStr "invoice"]> ∅)) _ _ _ Hat1) as (_ & _ & Hc).
    eexists _, (Document (next_oid st) now data). split; [reflexivity|].
    split; [|done]. unfold coll at 1. rewrite Hc by done.
    apply (store_insert_inserted now "invoicerequest" data st).
  - destruct (post_message_ok_run now msg _ _ Hm Hmay) as (st0 & [= <-] & ->).
    cbn [snd]. eexists _, (Document _ _ _). split; [reflexivity|].
    split; [apply store_insert_inserted|done].
  - done.
Qed.

Lemma written_documents_conform_witness :
  exists st' d',
    snd (subscribe None (SubscribeRequest.Build "ann@x.com" "invoice" None (Some "net 30"))
           demo) = Some st' /\
    coll st' "invoicerequest" = [d'] /\
    body d' !! "status" = Some (VStr "requested").
Proof.
  destruct (written_documents_conform demo_store None
              (RegisterRequest.Build "Cy" "cy@x.com")
              (SubscribeRequest.Build "ann@x.com" "invoice" None (Some "net 30"))
              (MessageCreate.Build "bob@x.com" "hi" "x") ann_doc bob_doc)
    as (_ & (st' & d' & H1 & H2 & H3) & _).
  - apply no_member_compute. reflexivity.
  - exact ann_resolves.
  - reflexivity.
  - exact bob_resolves.
  - exists "active". split; [reflexivity|]. apply list_elem_of_here.
  - exists st', d'. split; [exact H1|]. split; [exact H2|]. rewrite H3. reflexivity.
Defined.

(** ** Diagnostics *)



(** ** Repeated invoices *)

Lemma subscribe_invoice_state db now payload pre d post :
  resolves_at db (SubscribeRequest.email payload) pre d post ->
  lower (SubscribeRequest.provider payload) = "invoice" ->
  exists st st' d' inv,
    db = Some st /\
    subscribe now payload db = (Ok (subscription_response "pending" VNone), Some st') /\
    resolves_at (Some st') (SubscribeRequest.email payload) pre d' post /\
    coll st' "invoicerequest" = (coll st "invoicerequest" ++ [inv])%list /\
    invoice_request_of payload inv /\
    _id inv = next_oid st /\
    next_oid st' = N.succ (next_oid st).
Proof.
  intros Hat Hp.
  assert (resolves db (SubscribeRequest.email payload) d) as Hd by (by exists pre, post).
  destruct (resolves_store _ _ _ Hd) as [st ->].
  rewrite (subscribe_invoice _ _ _ d Hd Hp). cbn [fmap option_fmap option_map].
  set (data := <["member_email" := _]> _).
  set (u := <["subscription_status" := VStr "pending"]> (<["provider" := VStr "invoice"]> ∅)).
  pose proof (resolves_at_insert_other now "invoicerequest" data st _ _ _ _
                ltac:(done) Hat) as Hat1.
  pose proof (store_update_one_member _ _ u _ _ _ Hat1) as (_ & Hn & Hc).
  exists st, (store_update_one "member"
                {["email" := VStr (SubscribeRequest.email payload)]} u
                (store_insert now "invoicerequest" data st)),
    (set_fields u d), (Document (next_oid st) now data).
  split; [done|]. split; [done|]. split; [by apply resolves_at_update|].
  split; [unfold coll at 1; rewrite Hc by done;
          apply (store_insert_inserted now "invoicerequest" data st)|].
  split; [subst data; repeat split; by simplify_map_eq|]. split; [done|].
  by rewrite Hn.
Qed.

(** X20: invoice requests are not deduplicated.  When a member subscribes by
    invoice twice, both calls succeed and the InvoiceRequest collection
    gains two documents, one per call, each with status "requested" and its
    own identifier. *)
Theorem subscribe_invoice_twice (db : option store) (now now' : option Z)
  (first second : SubscribeRequest.t) (d : document N) :
  resolves db (SubscribeRequest.email first) d ->
  SubscribeRequest.email second = SubscribeRequest.email first ->
  nocase_eq (SubscribeRequest.provider first) "invoice" = true ->
  nocase_eq (SubscribeRequest.provider second) "invoice" = true ->
  exists st db1 st2 inv1 inv2,
    db = Some st /\
    subscribe now first db = (Ok (subscription_response "pending" VNone), db1) /\
    subscribe now' second db1 = (Ok (subscription_response "pending" VNone), Some st2) /\
    coll st2 "invoicerequest" = (coll st "invoicerequest" ++ [inv1; inv2])%list /\
    invoice_request_of first inv1 /\ invoice_request_of second inv2 /\
    _id inv1 <> _id inv2.
Proof.
  intros (pre & post & Hat) He H1%lower_nocase H2%lower_nocase; [|done|done].
  destruct (subscribe_invoice_state _ now _ _ _ _ Hat H1)
    as (st & st1 & d1 & inv1 & -> & Hrun1 & Hat1 & Hc1 & Hi1 & Hid1 & Hn1).
  rewrite <- He in Hat1.
  destruct (subscribe_invoice_state _ now' _ _ _ _ Hat1 H2)
    as (st1' & st2 & d2 & inv2 & [= <-] & Hrun2 & _ & Hc2 & Hi2 & Hid2 & _).
  exists st, (Some st1), st2, inv1, inv2. split; [done|]. split; [done|].
  split; [done|]. split; [by rewrite Hc2, Hc1, <- app_assoc|].
  split; [done|]. split; [done|]. rewrite Hid1, Hid2, Hn1. lia.
Qed.

Lemma subscribe_invoice_twice_witness :
  exists st2 inv1 inv2,
    snd (subscribe None (SubscribeRequest.Build "ann@x.com" "INVOICE" None None)
           (snd (subscribe None (SubscribeRequest.Build "ann@x.com" "invoice" None None)
                   demo))) = Some st2 /\
    coll st2 "invoicerequest" = [inv1; inv2].
Proof.
  destruct (subscribe_invoice_twice demo None None
              (SubscribeRequest.Build "ann@x.com" "invoice" None None)
              (SubscribeRequest.Build "ann@x.com" "INVOICE" None None) ann_doc
              ann_resolves eq_refl eq_refl eq_refl)
    as (st & db1 & st2 & inv1 & inv2 & Hst & H1 & H2 & Hc & _).
  injection Hst as <-. exists st2, inv1, inv2. rewrite H1. cbn [snd]. rewrite H2.
  split; [reflexivity|exact Hc].
Defined.

(** ** The empty header *)

(** X21: an empty X-Admin-Email header never passes the admin gate.  Each
    admin-gated handler called with the header present but empty fails with
    Forbidden and writes nothing, whatever the store holds, even a Member
    with the empty email and role "admin". *)
Theorem empty_header_forbidden (db : option store) (target : string)
  (role subscription_status : option string) (now : option Z)
  (video : VideoCreate.t) (resource : ResourceCreate.t) :
  list_members (Some "") db = (Raise (Forbidden "Admin only"), db) /\
  update_member target role subscription_status (Some "") db
  = (Raise (Forbidden "Admin only"), db) /\
  add_video now video (Some "") db = (Raise (Forbidden "Admin only"), db) /\
  add_resource now resource (Some "") db = (Raise (Forbidden "Admin only"), db).
Proof. repeat split. Qed.
